(** * adaptune: the settings wizards and the filter driver

    A shallow embedding of the three configuration wizards of
    [src/adaptune] ([config.py], [preference.py], [preferences.py]) and of
    [src/src/audapter/driver/filter_driver.py], and the properties of the
    settings resolver and of the tuning engine stated over it.

    Python objects are mutated in place; every method is a computation in a
    state-and-exception monad over the object (or module) it mutates, so a
    raised exception keeps the assignments made before it. *)

From Stdlib Require Import ZArith String List Bool Lia.
From stdpp Require Import gmap strings list fin_maps pretty.

Set Warnings "-register-all".
Open Scope Z_scope.
Open Scope string_scope.
Open Scope list_scope.

(** ** Python values *)

(** [KeyType = Union[str, int, float]] of [preferences.py]. A float is carried
    by its [repr], which Python guarantees to read back as the same float. *)
Inductive KeyType :=
| KStr (s : string)
| KInt (z : Z)
| KFloat (repr : string).

(** [str(k)] *)
Definition str (k : KeyType) : string :=
  match k with
  | KStr s => s
  | KInt z => pretty z
  | KFloat r => r
  end.

(** Truth value of [k] in [if k:]. *)
Definition truthy (k : KeyType) : bool :=
  match k with
  | KStr s => negb (String.eqb s "")
  | KInt z => negb (Z.eqb z 0)
  | KFloat r => negb (String.eqb r "0.0" || String.eqb r "-0.0")
  end.

(** [k == s] for a string literal [s], and [k in [s1, ..., sn]]. *)
Definition eq_lit (k : KeyType) (s : string) : bool :=
  match k with
  | KStr s' => String.eqb s' s
  | _ => false
  end.

Definition in_lits (k : KeyType) (lits : list string) : bool :=
  existsb (eq_lit k) lits.

(** What [commentjson.load] returns. A dict that is only indexed and assigned
    ([confdict], [config]) is a finite map. *)
Inductive json :=
| JKey (k : KeyType)
| JNull
| JBool (b : bool)
| JList (l : list json)
| JDict (d : gmap string json).

(** The dict of [.attributes.json] is walked in the order of its keys
    ([list(d.keys())]), so it keeps that order. [AOther] is any value that is
    neither a dict nor a list. *)
Inductive attr :=
| ADict (items : list (string * attr))
| AList (items : list KeyType)
| AOther.

Inductive exn :=
| KeyError (k : KeyType)
| TypeError
| IndexError
| ZeroDivisionError
| AttributeError (name : string)
| BlockSizeMismatch.

Inductive res (A : Type) :=
| Ok (a : A)
| Raise (e : exn).
Arguments Ok {A} a.
Arguments Raise {A} e.

(** ** Computations that mutate a state and may raise *)

Definition M (S A : Type) : Type := S -> res A * S.

Definition ret {S A} (a : A) : M S A := fun s => (Ok a, s).
Definition raise {S A} (e : exn) : M S A := fun s => (Raise e, s).
Definition bind {S A B} (m : M S A) (k : A -> M S B) : M S B :=
  fun s => match m s with
           | (Ok a, s') => k a s'
           | (Raise e, s') => (Raise e, s')
           end.
Definition gets {S A} (f : S -> A) : M S A := fun s => (Ok (f s), s).
Definition modify {S} (f : S -> S) : M S unit := fun s => (Ok tt, f s).
Definition when {S} (b : bool) (m : M S unit) : M S unit :=
  if b then m else ret tt.

Notation "'do' x <- m ; k" := (bind m (fun x => k))
  (at level 10, x name, m at level 100, k at level 200).
Notation "'do_' m ; k" := (bind m (fun _ => k))
  (at level 10, m at level 100, k at level 200).

Definition state_after {S A} (m : M S A) (s : S) : S := snd (m s).
Definition outcome {S A} (m : M S A) (s : S) : res A := fst (m s).

(** A computation keeps a part [f] of the state, however it ends. *)
Definition keeps {S A X} (f : S -> X) (m : M S A) : Prop :=
  forall s, f (state_after m s) = f s.

(** [d[k]] for the ordered dict of attributes: its keys are strings. *)
Fixpoint assoc (s : string) (items : list (string * attr)) : option attr :=
  match items with
  | [] => None
  | (s', a) :: rest => if String.eqb s' s then Some a else assoc s rest
  end.

Definition getitem {S} (items : list (string * attr)) (key : KeyType) : M S attr :=
  match key with
  | KStr s => match assoc s items with
              | Some a => ret a
              | None => raise (KeyError key)
              end
  | _ => raise (KeyError key)
  end.

(** [list(d.keys())] *)
Definition keys (items : list (string * attr)) : list KeyType :=
  map (fun p => KStr (fst p)) items.

(** [seq[i]] with Python's negative indices. *)
Definition py_index {A} (l : list A) (i : Z) : option A :=
  let n := Z.of_nat (length l) in
  if Z.leb 0 i && Z.ltb i n then nth_error l (Z.to_nat i)
  else if Z.leb (- n) i && Z.ltb i 0 then nth_error l (Z.to_nat (n + i))
  else None.

(** [conf[sect][k] = v] and [conf[k] = v] on a loaded configuration. *)
Definition setitem2 (sect k : string) (v : json) (conf : gmap string json)
  : res (gmap string json) :=
  match conf !! sect with
  | None => Raise (KeyError (KStr sect))
  | Some (JDict d) => Ok (<[sect := JDict (<[k := v]> d)]> conf)
  | Some _ => Raise TypeError
  end.

Definition setitem1 (k : string) (v : json) (conf : gmap string json)
  : res (gmap string json) :=
  Ok (<[k := v]> conf).

(** The three device positions. *)
Definition device_positions : list string := ["main"; "monitor"; "input"].

Definition newline : string := String (Ascii.ascii_of_nat 10) "".

(** Tokens of the prompt line, before [pygments_token_to_classname]. *)
Inductive Token :=
| T_QuestionMark | T_Question | T_Answer | T_Instruction | T_Breadcrumb | T_Token.

(** ** preferences.py *)

Module Preferences.

(** [class InquirerControl]: the list it presents and the cursor. *)
Record InquirerControl := mkIC {
  ic_nodes : list KeyType;
  selected_index : Z;
  answered : bool
}.

(** [InquirerControl(nodes)]: the class attributes give the cursor. *)
Definition new_control (nodes : list KeyType) : InquirerControl :=
  mkIC nodes 0 false.

Definition choice_count (c : InquirerControl) : Z :=
  Z.of_nat (length (ic_nodes c)).

(** [class PreferenceApp]. [container] stays [None] and [self.control] is an
    object, hence true in [if self.control:]. Of prompt_toolkit's own state
    only whether [exit] was called is kept; [reset], [invalidate] and
    [set_layout] act on the screen. *)
Record PreferenceApp := mkApp {
  want_to_continue : bool;
  all_done : bool;
  breadcrumb : string;
  control : InquirerControl;
  confdict : gmap string json;
  attr_header : attr;
  root : list KeyType;
  attributes : attr;
  nodes : list KeyType;
  current_node : KeyType;
  exited : bool
}.

Definition set_want_to_continue (b : bool) (a : PreferenceApp) : PreferenceApp :=
  mkApp b (all_done a) (breadcrumb a) (control a) (confdict a)
        (attr_header a) (root a) (attributes a) (nodes a) (current_node a)
        (exited a).
Definition set_all_done (b : bool) (a : PreferenceApp) : PreferenceApp :=
  mkApp (want_to_continue a) b (breadcrumb a) (control a) (confdict a)
        (attr_header a) (root a) (attributes a) (nodes a) (current_node a)
        (exited a).
Definition set_breadcrumb (b : string) (a : PreferenceApp) : PreferenceApp :=
  mkApp (want_to_continue a) (all_done a) b (control a) (confdict a)
        (attr_header a) (root a) (attributes a) (nodes a) (current_node a)
        (exited a).
Definition set_control (c : InquirerControl) (a : PreferenceApp) : PreferenceApp :=
  mkApp (want_to_continue a) (all_done a) (breadcrumb a) c (confdict a)
        (attr_header a) (root a) (attributes a) (nodes a) (current_node a)
        (exited a).
Definition set_confdict (c : gmap string json) (a : PreferenceApp) : PreferenceApp :=
  mkApp (want_to_continue a) (all_done a) (breadcrumb a) (control a) c
        (attr_header a) (root a) (attributes a) (nodes a) (current_node a)
        (exited a).
Definition set_attributes (x : attr) (a : PreferenceApp) : PreferenceApp :=
  mkApp (want_to_continue a) (all_done a) (breadcrumb a) (control a) (confdict a)
        (attr_header a) (root a) x (nodes a) (current_node a) (exited a).
Definition set_nodes (x : list KeyType) (a : PreferenceApp) : PreferenceApp :=
  mkApp (want_to_continue a) (all_done a) (breadcrumb a) (control a) (confdict a)
        (attr_header a) (root a) (attributes a) x (current_node a) (exited a).
Definition set_current_node (x : KeyType) (a : PreferenceApp) : PreferenceApp :=
  mkApp (want_to_continue a) (all_done a) (breadcrumb a) (control a) (confdict a)
        (attr_header a) (root a) (attributes a) (nodes a) x (exited a).
Definition set_exited (b : bool) (a : PreferenceApp) : PreferenceApp :=
  mkApp (want_to_continue a) (all_done a) (breadcrumb a) (control a) (confdict a)
        (attr_header a) (root a) (attributes a) (nodes a) (current_node a) b.

Definition set_selected_index (i : Z) (c : InquirerControl) : InquirerControl :=
  mkIC (ic_nodes c) i (answered c).
Definition set_answered (b : bool) (c : InquirerControl) : InquirerControl :=
  mkIC (ic_nodes c) (selected_index c) b.

Abbreviation App := (M PreferenceApp).

(** [InquirerControl.get_selection] *)
Definition get_selection : App KeyType :=
  do c <- gets control;
  match py_index (ic_nodes c) (selected_index c) with
  | Some key => ret key
  | None => raise IndexError
  end.

(** The key bindings of [setup_bindings]. *)
Definition move_cursor_down : App unit :=
  do c <- gets control;
  if Z.eqb (choice_count c) 0 then raise ZeroDivisionError
  else modify (set_control
         (set_selected_index ((selected_index c + 1) mod choice_count c) c)).

Definition move_cursor_up : App unit :=
  do c <- gets control;
  if Z.eqb (choice_count c) 0 then raise ZeroDivisionError
  else modify (set_control
         (set_selected_index ((selected_index c - 1) mod choice_count c) c)).

Definition set_value : App unit :=
  do c <- gets control;
  modify (set_control (set_answered true c)).

(** The dict branch of [_load_conf] on a dict that has no key [type] at any
    depth: [_eval_values] then copies the dict key by key and evaluates
    nothing, and the keys are listed without [__description__]. Reading the
    file, the list branch and the [eval] of a value under [type], which may
    raise, are not part of this. *)
Definition _load_conf (config : list (string * attr)) : attr * list KeyType :=
  (ADict config,
   filter (fun key => negb (eq_lit key "__description__")) (keys config)).

(** [set_header] and [_initialize]; [super().__init__] makes the
    application runnable again. *)
Definition set_header : App unit :=
  do h <- gets attr_header;
  do_ modify (set_attributes h);
  do r <- gets root;
  do_ modify (set_nodes r);
  do n <- gets nodes;
  modify (set_control (new_control n)).

Definition _initialize : App unit :=
  do_ set_header;
  modify (set_exited false).

(** [self.confdict[sect][k] = v] and [self.confdict[k] = v] *)
Definition conf_set2 (sect k : string) (v : KeyType) : App unit :=
  do c <- gets confdict;
  match setitem2 sect k (JKey v) c with
  | Ok c' => modify (set_confdict c')
  | Raise e => raise e
  end.

Definition conf_set1 (k : string) (v : KeyType) : App unit :=
  do c <- gets confdict;
  match setitem1 k (JKey v) c with
  | Ok c' => modify (set_confdict c')
  | Raise e => raise e
  end.

(** The inner functions of [select_index]. *)
Definition set_child_control (key : KeyType) (attributes_ : attr) : App unit :=
  do_ match attributes_ with
      | ADict items =>
          do attr_child <- getitem items key;
          match attr_child with
          | ADict ch =>
              do_ modify (set_attributes attr_child);
              modify (set_nodes (keys ch))
          | AList l =>
              do_ modify (set_attributes (AList []));
              modify (set_nodes l)
          | AOther => ret tt
          end
      | _ => ret tt
      end;
  do n <- gets nodes;
  modify (set_control (new_control n)).

(** [_result: Union[bool, KeyType]]: [None] is [False]. [snddevs] is the list
    of names [sd.query_devices()] reports. *)
Definition _work_before_node (snddevs : list string) (key : KeyType) (attr_ : attr)
  : App (option KeyType) :=
  match attr_ with
  | ADict _ =>
      if in_lits key device_positions then
        let devlist := map KStr snddevs in
        do_ modify (set_current_node key);
        do_ modify (set_attributes (AList []));
        do_ modify (set_nodes devlist);
        do_ modify (set_control (new_control devlist));
        ret None
      else
        do_ set_child_control key attr_;
        ret None
  | AList _ =>
      do cur <- gets current_node;
      do_ (if in_lits (KStr (str cur)) device_positions then ret tt
           else modify (set_current_node key));
      do_ modify (set_attributes (AList []));
      ret (Some key)
  | AOther => ret None
  end.

Definition _setval_if_key_is_node (key_prev selected : KeyType) : App unit :=
  do_ (if in_lits key_prev ["rate"; "periodsize"; "channels"] then
         conf_set2 "hw_params" (str key_prev) selected
       else if in_lits key_prev ["alsa"; "sounddevice"] then
         conf_set2 "hw_params" "formatname" selected
       else if eq_lit key_prev "w" then
         conf_set2 "filter_params" (str key_prev) selected
       else if in_lits key_prev ["filter_domain"; "filter_algo"] then
         conf_set1 (str key_prev) selected
       else if in_lits key_prev device_positions then
         conf_set2 "devices" (str key_prev) selected
       else ret tt);
  do c <- gets control;
  do_ modify (set_control (set_answered false c));
  do_ modify (set_all_done true);
  modify (set_exited true).

Definition select_index (snddevs : list string) (key : KeyType) (attributes_ : attr)
  : App unit :=
  do result <- _work_before_node snddevs key attributes_;
  match result with
  | Some selected =>
      if truthy selected then
        do key_prev <- gets current_node;
        _setval_if_key_is_node key_prev selected
      else ret tt
  | None => ret tt
  end.

(** [get_prompt_tokens], called at each rendering of the prompt line. *)
Definition get_prompt_tokens (snddevs : list string) : App (list (Token * string)) :=
  let tokens := [(T_QuestionMark, "?"); (T_Question, " Configure about: ")] in
  do c <- gets control;
  do selected <- (if answered c then do k <- get_selection; ret (Some k)
                  else ret None);
  match selected with
  | Some sel =>
      if truthy sel then
        do b <- gets breadcrumb;
        do tokens <-
          (if negb (String.eqb b "") then
             do_ modify (set_breadcrumb (b +:+ " >"));
             ret (tokens ++ [(T_Breadcrumb, b +:+ " >")])
           else ret tokens);
        let tokens := tokens ++ [(T_Answer, " " +:+ str sel); (T_Token, newline)] in
        do b <- gets breadcrumb;
        do_ modify (set_breadcrumb (b +:+ " " +:+ str sel));
        do a <- gets attributes;
        do_ select_index snddevs sel a;
        ret tokens
      else
        do b <- gets breadcrumb;
        ret ((if negb (String.eqb b "") then tokens ++ [(T_Breadcrumb, b)] else tokens)
               ++ [(T_Instruction, " (Use arrow keys)")])
  | None =>
      do b <- gets breadcrumb;
      ret ((if negb (String.eqb b "") then tokens ++ [(T_Breadcrumb, b)] else tokens)
             ++ [(T_Instruction, " (Use arrow keys)")])
  end.

End Preferences.

(** ** preference.py *)

Module Preference.

Record InquirerControl := mkIC {
  ic_choices : list KeyType;
  selected_option_index : Z;
  answered : bool
}.

Definition new_control (choices : list KeyType) : InquirerControl :=
  mkIC choices 0 false.

Definition choice_count (c : InquirerControl) : Z :=
  Z.of_nat (length (ic_choices c)).

Definition set_selected_option_index (i : Z) (c : InquirerControl) : InquirerControl :=
  mkIC (ic_choices c) i (answered c).
Definition set_answered (b : bool) (c : InquirerControl) : InquirerControl :=
  mkIC (ic_choices c) (selected_option_index c) b.

(** [class ConfigurationApp]. [ic] and [ic_init] name control objects that
    live in [objects]: [self.ic = self.ic_init] makes both names one object.
    [attributes] is [None] once a list was entered; [current_choice] is
    [None] as long as the attribute was never assigned (neither the class
    nor [__init__] assigns it). *)
Record ConfigurationApp := mkApp {
  want_to_continue : bool;
  finished : bool;
  breadcrumb : string;
  confdict : gmap string json;
  attributes : option attr;
  choices_init : list KeyType;
  choices : list KeyType;
  objects : list InquirerControl;
  ic_init : nat;
  ic : nat;
  current_choice : option KeyType;
  exited : bool
}.

Definition set_want_to_continue (b : bool) (a : ConfigurationApp) :=
  mkApp b (finished a) (breadcrumb a) (confdict a) (attributes a)
        (choices_init a) (choices a) (objects a) (ic_init a) (ic a)
        (current_choice a) (exited a).
Definition set_finished (b : bool) (a : ConfigurationApp) :=
  mkApp (want_to_continue a) b (breadcrumb a) (confdict a) (attributes a)
        (choices_init a) (choices a) (objects a) (ic_init a) (ic a)
        (current_choice a) (exited a).
Definition set_breadcrumb (b : string) (a : ConfigurationApp) :=
  mkApp (want_to_continue a) (finished a) b (confdict a) (attributes a)
        (choices_init a) (choices a) (objects a) (ic_init a) (ic a)
        (current_choice a) (exited a).
Definition set_confdict (c : gmap string json) (a : ConfigurationApp) :=
  mkApp (want_to_continue a) (finished a) (breadcrumb a) c (attributes a)
        (choices_init a) (choices a) (objects a) (ic_init a) (ic a)
        (current_choice a) (exited a).
Definition set_attributes (x : option attr) (a : ConfigurationApp) :=
  mkApp (want_to_continue a) (finished a) (breadcrumb a) (confdict a) x
        (choices_init a) (choices a) (objects a) (ic_init a) (ic a)
        (current_choice a) (exited a).
Definition set_choices (x : list KeyType) (a : ConfigurationApp) :=
  mkApp (want_to_continue a) (finished a) (breadcrumb a) (confdict a)
        (attributes a) (choices_init a) x (objects a) (ic_init a) (ic a)
        (current_choice a) (exited a).
Definition set_objects (x : list InquirerControl) (a : ConfigurationApp) :=
  mkApp (want_to_continue a) (finished a) (breadcrumb a) (confdict a)
        (attributes a) (choices_init a) (choices a) x (ic_init a) (ic a)
        (current_choice a) (exited a).
Definition set_ic (x : nat) (a : ConfigurationApp) :=
  mkApp (want_to_continue a) (finished a) (breadcrumb a) (confdict a)
        (attributes a) (choices_init a) (choices a) (objects a) (ic_init a) x
        (current_choice a) (exited a).
Definition set_current_choice (x : option KeyType) (a : ConfigurationApp) :=
  mkApp (want_to_continue a) (finished a) (breadcrumb a) (confdict a)
        (attributes a) (choices_init a) (choices a) (objects a) (ic_init a)
        (ic a) x (exited a).
Definition set_exited (b : bool) (a : ConfigurationApp) :=
  mkApp (want_to_continue a) (finished a) (breadcrumb a) (confdict a)
        (attributes a) (choices_init a) (choices a) (objects a) (ic_init a)
        (ic a) (current_choice a) b.

Abbreviation App := (M ConfigurationApp).

(** Reading and updating the object [self.ic] names, and creating one. *)
Definition the_ic : App InquirerControl :=
  do a <- gets (fun a => a);
  match objects a !! ic a with
  | Some c => ret c
  | None => raise (AttributeError "ic")
  end.

Definition update_ic (f : InquirerControl -> InquirerControl) : App unit :=
  do c <- the_ic;
  do a <- gets (fun a => a);
  modify (set_objects (<[ic a := f c]> (objects a))).

Definition alloc (c : InquirerControl) : App nat :=
  do objs <- gets objects;
  do_ modify (set_objects (objs ++ [c]));
  ret (length objs).

Definition get_selection : App KeyType :=
  do c <- the_ic;
  match py_index (ic_choices c) (selected_option_index c) with
  | Some key => ret key
  | None => raise IndexError
  end.

Definition move_cursor_down : App unit :=
  do c <- the_ic;
  if Z.eqb (choice_count c) 0 then raise ZeroDivisionError
  else update_ic (set_selected_option_index
                    ((selected_option_index c + 1) mod choice_count c)).

Definition move_cursor_up : App unit :=
  do c <- the_ic;
  if Z.eqb (choice_count c) 0 then raise ZeroDivisionError
  else update_ic (set_selected_option_index
                    ((selected_option_index c - 1) mod choice_count c)).

Definition conf_set2 (sect k : string) (v : KeyType) : App unit :=
  do c <- gets confdict;
  match setitem2 sect k (JKey v) c with
  | Ok c' => modify (set_confdict c')
  | Raise e => raise e
  end.

Definition conf_set1 (k : string) (v : KeyType) : App unit :=
  do c <- gets confdict;
  match setitem1 k (JKey v) c with
  | Ok c' => modify (set_confdict c')
  | Raise e => raise e
  end.

(** The inner functions of [select_item]. *)
Definition get_ic_child (key : KeyType) (attributes_ : option attr) : App nat :=
  do attr_child <-
    match attributes_ with
    | Some (ADict items) => getitem items key
    | Some (AList l) =>
        match key with
        | KInt i => match py_index l i with
                    | Some _ => ret AOther
                    | None => raise IndexError
                    end
        | _ => raise TypeError
        end
    | _ => raise TypeError
    end;
  do_ match attr_child with
      | ADict ch =>
          do_ modify (set_attributes (Some attr_child));
          modify (set_choices (keys ch))
      | AList l =>
          do_ modify (set_attributes None);
          modify (set_choices l)
      | AOther => ret tt
      end;
  do ch <- gets choices;
  alloc (new_control ch).

(** [answer] is what the operator replies to [yes_no_dialog]. *)
Definition guess (answer : bool) : App unit :=
  do_ modify (set_want_to_continue answer);
  if answer then
    do i <- gets ic_init;
    modify (set_ic i)
  else modify (set_finished true).

(** [x or "lit"]: the literal is a non-empty string. *)
Definition or_lit (b : bool) (lit : string) : bool :=
  b || negb (String.eqb lit "").

(** Returns [Some false] for [return False] and [None] for a branch that
    falls off its end. A key of a JSON object is a string. *)
Definition _pref_conf (answer : bool) (choice key : KeyType) : App (option bool) :=
  if eq_lit choice "rate" then
    do_ conf_set2 "hw_params" "rate" key; do_ guess answer; ret None
  else if or_lit (eq_lit choice "alsa") "sounddevice" then
    do_ conf_set2 "hw_params" "fomatname" key; do_ guess answer; ret None
  else if eq_lit choice "periodsize" then
    do_ conf_set2 "hw_params" "periodsize" key; do_ guess answer; ret None
  else if eq_lit choice "channels" then
    do_ conf_set2 "hw_params" "channels" key; do_ guess answer; ret None
  else if eq_lit choice "mu" then
    do_ conf_set2 "filter_params" "mu" key; do_ guess answer; ret None
  else if eq_lit choice "w" then
    do_ conf_set2 "filter_params" "w" key; do_ guess answer; ret None
  else if eq_lit choice "filter_domain" then
    do_ conf_set1 "filter_domain" key; do_ guess answer; ret None
  else if eq_lit choice "filter_algo" then
    do_ conf_set1 "filter_algo" key; do_ guess answer; ret None
  else if or_lit (or_lit (eq_lit choice "main") "monitor") "input" then
    do_ conf_set2 "devices" (str choice) key; do_ guess answer; ret None
  else ret (Some false).

Definition select_item (answer : bool) (key : KeyType) (attributes_ : option attr)
  : App unit :=
  do cur <- gets current_choice;
  match cur with
  | None => raise (AttributeError "current_choice")
  | Some choice =>
      do res <- _pref_conf answer choice key;
      match res with
      | Some false =>
          do i <- get_ic_child key attributes_;
          do_ modify (set_ic i);
          modify (set_current_choice (Some key))
      | _ => ret tt
      end
  end.

Definition get_prompt_tokens (answer : bool) : App (list (Token * string)) :=
  let tokens := [(T_QuestionMark, "?"); (T_Question, " Configure about: ")] in
  do c <- the_ic;
  if answered c then
    do selected <- get_selection;
    do b <- gets breadcrumb;
    do tokens <-
      (if negb (String.eqb b "") then
         do_ modify (set_breadcrumb (b +:+ " >"));
         ret (tokens ++ [(T_Breadcrumb, b +:+ " >")])
       else ret tokens);
    let tokens := tokens ++ [(T_Answer, " " +:+ str selected); (T_Token, newline)] in
    do b <- gets breadcrumb;
    do_ modify (set_breadcrumb (b +:+ " " +:+ str selected));
    do a <- gets attributes;
    do_ select_item answer selected a;
    ret tokens
  else ret (tokens ++ [(T_Instruction, " (Use arrow keys)")]).

(** The enter key; [_set_layout] evaluates [self.get_prompt_tokens()]. *)
Definition set_value (answer : bool) : App unit :=
  do_ update_ic (set_answered true);
  do w <- gets want_to_continue;
  do f <- gets finished;
  if negb w && f then modify (set_exited true)
  else do_ get_prompt_tokens answer; ret tt.

(** The application [__init__] leaves, given what [_get_conf] loaded. *)
Definition init (conf : gmap string json) (attributes_ : attr)
           (choices_init_ : list KeyType) : ConfigurationApp :=
  mkApp false false "" conf (Some attributes_) choices_init_ choices_init_
        [new_control choices_init_] 0 0 None false.

End Preference.

(** ** config.py *)

Module Config.

Record InquirerControl := mkIC {
  ic_choices : list string;
  selected_option_index : Z;
  answered : bool
}.

Definition choice_count (c : InquirerControl) : Z :=
  Z.of_nat (length (ic_choices c)).

(** The module's globals: [config], the control [ic], what was printed. *)
Record Module_ := mkModule {
  config : gmap string json;
  ic : InquirerControl;
  stdout : list string;
  exited : bool
}.

Definition set_config (c : gmap string json) (m : Module_) : Module_ :=
  mkModule c (ic m) (stdout m) (exited m).
Definition set_ic (c : InquirerControl) (m : Module_) : Module_ :=
  mkModule (config m) c (stdout m) (exited m).
Definition print (line : string) (m : Module_) : Module_ :=
  mkModule (config m) (ic m) (stdout m ++ [line]) (exited m).
Definition set_exited (b : bool) (m : Module_) : Module_ :=
  mkModule (config m) (ic m) (stdout m) b.

Definition set_selected_option_index (i : Z) (c : InquirerControl) : InquirerControl :=
  mkIC (ic_choices c) i (answered c).
Definition set_answered (b : bool) (c : InquirerControl) : InquirerControl :=
  mkIC (ic_choices c) (selected_option_index c) b.

Abbreviation Mod := (M Module_).

(** [del config[k]] *)
Definition delitem (k : string) : Mod unit :=
  do c <- gets config;
  match c !! k with
  | Some _ => modify (set_config (delete k c))
  | None => raise (KeyError (KStr k))
  end.

Section Dump.

(** [commentjson.dumps(obj, indent=...)], an external serializer. *)
Variable dumps : option nat -> gmap string json -> string.

(** The returned dict is the object [config] itself. *)
Definition dump_defaults (puts description : bool)
  : Mod (string * gmap string json) :=
  do_ when (negb description) (delitem "__description__");
  do_ when puts (do c <- gets config; modify (print (dumps (Some 4%nat) c)));
  do c <- gets config;
  ret (dumps None c, c).

End Dump.

Definition get_selection : Mod string :=
  do c <- gets ic;
  match py_index (ic_choices c) (selected_option_index c) with
  | Some key => ret key
  | None => raise IndexError
  end.

Definition move_cursor_down : Mod unit :=
  do c <- gets ic;
  if Z.eqb (choice_count c) 0 then raise ZeroDivisionError
  else modify (set_ic (set_selected_option_index
                 ((selected_option_index c + 1) mod choice_count c) c)).

Definition move_cursor_up : Mod unit :=
  do c <- gets ic;
  if Z.eqb (choice_count c) 0 then raise ZeroDivisionError
  else modify (set_ic (set_selected_option_index
                 ((selected_option_index c - 1) mod choice_count c) c)).

Definition set_answer : Mod unit :=
  do c <- gets ic;
  do_ modify (set_ic (set_answered true c));
  modify (set_exited true).

End Config.

(** ** audapter/driver/filter_driver.py *)

Module FilterDriver.

Inductive Domain := TimeDomain | FrequencyDomain.

Section Engine.

(** A sample (a float), and the units the engine plugs in: the products of
    the filter, the difference of two samples, the update rule of the
    algorithm named in the configuration, the error statistic and the
    transform of the frequency domain. *)
Variable sample : Type.
Variable estimate : list sample -> list sample -> sample.
Variable minus : sample -> sample -> sample.
Variable rule : string -> sample -> sample ->
                list sample -> list sample -> sample -> list sample.
Variable accumulate : sample -> sample -> sample.
Variable zero : sample.
Variable transform inverse : nat -> list sample -> list sample.

(** Modelled from the spec: the settings object of [helper.load_config],
    which is not among the sources; it holds the RuntimeConfig record of
    the data model. [settings.get("FILTER.model")], [("FILTER.mu")],
    [("FILTER.w")] and [("FILTER.lambda_")] read [filterAlgorithm], [mu],
    [initialWeights] and [lambda]. *)
Record Settings := mkSettings {
  rate : Z;
  formatName : string;
  periodSize : nat;
  channels : Z;
  mu_ : sample;
  lambda : sample;
  initialWeights : list sample;
  filterDomain : Domain;
  filterAlgorithm : string;
  dev_main : string;
  dev_monitor : string;
  dev_input : string
}.

(** Modelled from the spec: the FilterState of [domain.model.FilterModel],
    which is not among the sources: the arguments of its constructor, the
    coefficient vector [w], the history window of the observed signal and
    the cumulative error statistic. *)
Record FilterModel := mkFilter {
  model : string;
  f_shape : nat;
  mu : sample;
  w : list sample;
  lambda_ : sample;
  domain : Domain;
  period : nat;
  window : list sample;
  error_stat : sample
}.

(** Modelled from the spec: [FilterModel(model, shape, mu, w, lambda_)] as
    [start] describes it; domain and period size come from the settings. *)
Definition FilterModel_new (settings : Settings) (model_ : string) (shape : nat)
           (mu0 : sample) (w0 : list sample) (lambda0 : sample) : FilterModel :=
  mkFilter model_ shape mu0 w0 lambda0 (filterDomain settings)
           (periodSize settings) [] zero.

(** Modelled from the spec: one sample of the time domain. The observed
    sample enters the history window, the output and the error follow
    from the current weights, the rule updates them, and the estimate of
    the updated filter is emitted. *)
Definition adapt_sample (f : FilterModel) (d x : sample) : sample * FilterModel :=
  let win := firstn (length (w f)) (x :: window f) in
  let y := estimate (w f) win in
  let e := minus d y in
  let w' := rule (model f) (mu f) (lambda_ f) (w f) win e in
  (estimate w' win,
   mkFilter (model f) (f_shape f) (mu f) w' (lambda_ f) (domain f) (period f)
            win (accumulate (error_stat f) e)).

Fixpoint adapt_block (f : FilterModel) (desired observed : list sample)
  : list sample * FilterModel :=
  match desired, observed with
  | d :: ds, x :: xs =>
      let (y, f') := adapt_sample f d x in
      let (ys, f'') := adapt_block f' ds xs in
      (y :: ys, f'')
  | _, _ => ([], f)
  end.

(** Modelled from the spec: [FilterModel.apply], the [tune] of the engine.
    A block whose size is not the period size is refused; in the
    frequency domain both blocks are transformed, adapted bin by bin and
    the result is transformed back. *)
Definition apply (desired data_in : list sample) : M FilterModel (list sample) :=
  fun f =>
    if Nat.eqb (length desired) (period f) && Nat.eqb (length data_in) (period f)
    then
      match domain f with
      | TimeDomain =>
          let (ys, f') := adapt_block f desired data_in in (Ok ys, f')
      | FrequencyDomain =>
          let (ys, f') := adapt_block f (transform (period f) desired)
                                      (transform (period f) data_in) in
          (Ok (inverse (period f) ys), f')
      end
    else (Raise BlockSizeMismatch, f).

(** [class FilterDriver] *)
Record FilterDriver := mkDriver {
  shape : nat;
  filter_ : FilterModel
}.

(** [__init__] *)
Definition init (settings : Settings) (shape_ : nat) : FilterDriver :=
  mkDriver shape_
    (FilterModel_new settings (filterAlgorithm settings) shape_
       (mu_ settings) (initialWeights settings) (lambda settings)).

(** [tune]: [self.filter_.apply(desired, data_in)] *)
Definition tune (desired data_in : list sample) : M FilterDriver (list sample) :=
  fun self =>
    let (r, f') := apply desired data_in (filter_ self) in
    (r, mkDriver (shape self) f').

(** [get_filter_weights]: [self.filter_.w] *)
Definition get_filter_weights : M FilterDriver (list sample) :=
  gets (fun self => w (filter_ self)).

(** A run: the driver is fed the blocks one after the other, and after
    each call the weights are read; a refused block ends only its call. *)
Fixpoint run (self : FilterDriver) (blocks : list (list sample * list sample))
  : list (res (list sample) * res (list sample)) * FilterDriver :=
  match blocks with
  | [] => ([], self)
  | (desired, data_in) :: rest =>
      let (filtered, self1) := tune desired data_in self in
      let (weights, self2) := get_filter_weights self1 in
      let (trace, self3) := run self2 rest in
      ((filtered, weights) :: trace, self3)
  end.

End Engine.

End FilterDriver.

(** ** The routing table of [_setval_if_key_is_node], read as data *)

Module Routing.

(** A place in the configuration: [conf[k]] or [conf[sect][k]]. *)
Inductive Dest :=
| Top (k : string)
| Nested (sect k : string).

Definition destination (key_prev : KeyType) : option Dest :=
  if in_lits key_prev ["rate"; "periodsize"; "channels"] then
    Some (Nested "hw_params" (str key_prev))
  else if in_lits key_prev ["alsa"; "sounddevice"] then
    Some (Nested "hw_params" "formatname")
  else if eq_lit key_prev "w" then
    Some (Nested "filter_params" (str key_prev))
  else if in_lits key_prev ["filter_domain"; "filter_algo"] then
    Some (Top (str key_prev))
  else if in_lits key_prev device_positions then
    Some (Nested "devices" (str key_prev))
  else None.

Definition write (d : Dest) (v : json) (conf : gmap string json)
  : res (gmap string json) :=
  match d with
  | Top k => setitem1 k v conf
  | Nested sect k => setitem2 sect k v conf
  end.

Definition read (d : Dest) (conf : gmap string json) : option json :=
  match d with
  | Top k => conf !! k
  | Nested sect k =>
      match conf !! sect with
      | Some (JDict sub) => sub !! k
      | _ => None
      end
  end.

(** Routing a key: the write at its place, nothing without a place. *)
Definition route (key_prev : KeyType) (v : json) (conf : gmap string json)
  : res (gmap string json) :=
  match destination key_prev with
  | Some d => write d v conf
  | None => Ok conf
  end.

(** Two places no write to one of which changes the other. *)
Definition apart (d1 d2 : Dest) : Prop :=
  match d1, d2 with
  | Top k1, Top k2 => k1 <> k2
  | Top k1, Nested s2 _ => k1 <> s2
  | Nested s1 _, Top k2 => s1 <> k2
  | Nested s1 k1, Nested s2 k2 => s1 <> s2 \/ k1 <> k2
  end.

(** The two keys that name the format share [hw_params.formatname]. *)
Definition names_format (k : KeyType) : bool :=
  in_lits k ["alsa"; "sounddevice"].

(** What [_setval_if_key_is_node] does after the table: the post process. *)
Definition post_process (a : Preferences.PreferenceApp) : Preferences.PreferenceApp :=
  Preferences.set_exited true
    (Preferences.set_all_done true
       (Preferences.set_control
          (Preferences.set_answered false (Preferences.control a)) a)).

End Routing.

(** ** The event loop of the wizard of preferences.py *)

Module Navigator.
Import Preferences.

(** The keys [setup_bindings] binds: the two cursor keys, enter, and
    control-C or control-Q. *)
Inductive Key := Down | Up | Enter | Interrupt.

Definition handler (k : Key) : App unit :=
  match k with
  | Down => move_cursor_down
  | Up => move_cursor_up
  | Enter => set_value
  | Interrupt => modify (set_exited true)
  end.

(** The handler of the down key, [n] times in a row. *)
Fixpoint press_down (n : nat) : App unit :=
  match n with
  | O => ret tt
  | S n' => do_ move_cursor_down; press_down n'
  end.

(** The label the next rendering of the prompt line resolves: the one under
    the cursor, when an answer is pending and the label holds in an [if]. *)
Definition pending : App (option KeyType) :=
  do c <- gets control;
  if answered c then
    do sel <- get_selection;
    ret (if truthy sel then Some sel else None)
  else ret None.

(** prompt_toolkit redraws the screen when the application starts and after
    the handler of every key; a redraw evaluates [get_prompt_tokens]. The
    label it resolves is returned. A redraw that returns leaves nothing to
    be rendered (lemma [redraw_settles]), so that one redraw stands for as
    many as are made before the next key. *)
Definition redraw (snddevs : list string) : App (option KeyType) :=
  do sel <- pending;
  do_ get_prompt_tokens snddevs;
  ret sel.

Definition resolved (sel : option KeyType) : list KeyType :=
  match sel with
  | Some label => [label]
  | None => []
  end.

(** One key, read on its own as a keyboard sends it: its handler, then the
    redraw. *)
Definition press (snddevs : list string) (k : Key) : App (option KeyType) :=
  do_ handler k;
  redraw snddevs.

(** One choice at the keyboard of the running application: the down key [n]
    times, then the enter key. The labels resolved on the way are returned. *)
Fixpoint choose (snddevs : list string) (n : nat) : App (list KeyType) :=
  match n with
  | O => do sel <- press snddevs Enter; ret (resolved sel)
  | S n' =>
      do sel <- press snddevs Down;
      do sels <- choose snddevs n';
      ret (resolved sel ++ sels)
  end.

(** The keys typed while [self.run()] runs: once [exit] was called the
    application takes no further key. *)
Fixpoint run_keys (snddevs : list string) (keys : list Key) : App (list KeyType) :=
  match keys with
  | [] => ret []
  | k :: rest =>
      do x <- gets exited;
      if x then ret []
      else
        do sel <- press snddevs k;
        do sels <- run_keys snddevs rest;
        ret (resolved sel ++ sels)
  end.

(** [self.run()]: the application runs again, draws the screen, and takes
    the keys. *)
Definition run (snddevs : list string) (keys : list Key) : App (list KeyType) :=
  do_ modify (set_exited false);
  do first <- redraw snddevs;
  do rest <- run_keys snddevs keys;
  ret (resolved first ++ rest).

(** The keys of a sequence of choices: for each, the down key so many times
    and the enter key. *)
Definition keys_of (presses : list nat) : list Key :=
  flat_map (fun n => repeat Down n ++ [Enter]) presses.

Definition walk (snddevs : list string) (presses : list nat) : App (list KeyType) :=
  run snddevs (keys_of presses).

(** [main]: for each round the keys typed while the application runs and the
    answer to the dialog that asks for another round. [save_conf], behind the
    dialog before it, writes [confdict] to the file and changes nothing of
    the application. A round whose keys do not end it is still running. *)
Fixpoint main (snddevs : list string) (rounds : list (list Key * bool))
  : App (list KeyType) :=
  match rounds with
  | [] => ret []
  | (keys, again) :: rest =>
      do w <- gets want_to_continue;
      if w then
        do labels <- run snddevs keys;
        do x <- gets exited;
        if x then
          do_ modify (set_want_to_continue again);
          do_ when again _initialize;
          do more <- main snddevs rest;
          ret (labels ++ more)
        else ret labels
      else ret []
  end.

(** The breadcrumb after one more label, and after a list of labels. *)
Definition append_label (b : string) (sel : KeyType) : string :=
  (if String.eqb b "" then b else b +:+ " >") +:+ " " +:+ str sel.

Definition crumb (b : string) (sel : KeyType) : string :=
  if truthy sel then append_label b sel else b.

Definition trail (b : string) (labels : list KeyType) : string :=
  fold_left crumb labels b.

(** A computation returns, after [pre], the labels it resolved: each holds
    in an [if], and the breadcrumb has grown by them. *)
Definition records (pre : list KeyType) (m : App (list KeyType)) : Prop :=
  forall (a : PreferenceApp) (labels : list KeyType),
    outcome m a = Ok labels ->
    exists more,
      labels = pre ++ more /\
      breadcrumb (state_after m a) = trail (breadcrumb a) more /\
      Forall (fun label => truthy label = true) more.

(** The application as [__init__] leaves it: the class attributes, what
    [get_config] loaded, then [_initialize]. *)
Definition start (conf : gmap string json) (header : list (string * attr))
  : PreferenceApp :=
  let (attr_header_, root_) := _load_conf header in
  state_after _initialize
    (mkApp true false "" (new_control []) conf attr_header_ root_
           (ADict []) [] (KStr "") false).

(** The cursor stays on an entry of the list, whatever key moves it. *)
Definition cursor_wraps {S K} (index count : S -> Z) (get : M S K)
           (down up : M S unit) : Prop :=
  forall s : S,
    0 < count s -> 0 <= index s < count s ->
    (outcome down s = Ok tt /\
     index (state_after down s) = (index s + 1) mod count s /\
     count (state_after down s) = count s /\
     0 <= index (state_after down s) < count s /\
     exists k, outcome get (state_after down s) = Ok k) /\
    (outcome up s = Ok tt /\
     index (state_after up s) = (index s - 1) mod count s /\
     count (state_after up s) = count s /\
     0 <= index (state_after up s) < count s /\
     exists k, outcome get (state_after up s) = Ok k).

(** The cursor and the length of the list of the control [self.ic] names. *)
Definition ic_index (a : Preference.ConfigurationApp) : Z :=
  match Preference.objects a !! Preference.ic a with
  | Some c => Preference.selected_option_index c
  | None => 0
  end.

Definition ic_count (a : Preference.ConfigurationApp) : Z :=
  match Preference.objects a !! Preference.ic a with
  | Some c => Preference.choice_count c
  | None => 0
  end.

End Navigator.

(** ** Inputs of the scenarios *)

Module Scenario.

(** The schema [{hw_params: {rate: [44100, 48000]}}] and a configuration
    whose rate is 44100. *)
Definition schema : list (string * attr) :=
  [("hw_params", ADict [("rate", AList [KInt 44100; KInt 48000])])].

Definition conf0 : gmap string json :=
  {[ "hw_params" := JDict {[ "rate" := JKey (KInt 44100) ]} ]}.

Definition app0 : Preferences.PreferenceApp := Navigator.start conf0 schema.

(** The same application once [hw_params] and [rate] were chosen: the two
    rates are presented, the cursor on the first. *)
Definition app_rates : Preferences.PreferenceApp :=
  state_after (Navigator.walk [] [0; 0]%nat) app0.

(** A configuration with the three sections, empty. *)
Definition sections : gmap string json :=
  {[ "hw_params" := JDict ∅; "filter_params" := JDict ∅; "devices" := JDict ∅ ]}.

Definition app1 : Preferences.PreferenceApp := Navigator.start sections schema.

(** [preference.py] on the same files, and with [current_choice] set by hand. *)
Definition capp0 : Preference.ConfigurationApp :=
  Preference.init conf0 (ADict schema) (keys schema).

Definition capp1 (choice : KeyType) : Preference.ConfigurationApp :=
  Preference.set_current_choice (Some choice)
    (Preference.init sections (ADict schema) (keys schema)).

(** The dict of [params.json] without and with its description, and the
    module of [config.py] around it. *)
Definition params : gmap string json :=
  {[ "filter_domain" := JKey (KStr "time"); "filter_algo" := JKey (KStr "FilterLMS") ]}.

Definition loaded : gmap string json :=
  <[ "__description__" := JKey (KStr "defaults") ]> params.

Definition module_of (c : gmap string json) : Config.Module_ :=
  Config.mkModule c (Config.mkIC ["filter_domain"; "filter_algo"] 0 false) [] false.

(** An engine over integer samples with a least-mean-squares rule. *)
Definition dot (ws xs : list Z) : Z :=
  fold_right Z.add 0 (map (fun p => fst p * snd p) (combine ws xs)).

Definition lms (_ : string) (mu _ : Z) (ws win : list Z) (e : Z) : list Z :=
  map (fun p => fst p + mu * e * snd p) (combine ws (win ++ repeat 0 (length ws))).

Definition settings256 : FilterDriver.Settings Z :=
  FilterDriver.mkSettings Z 48000 "PCM_FORMAT_S16_LE" 256 1 1 1 [0; 0]
    FilterDriver.TimeDomain "FilterLMS" "hw:0" "hw:1" "hw:2".

Definition tuneZ := FilterDriver.tune Z dot Z.sub lms Z.add (fun _ l => l) (fun _ l => l).
Definition initZ := FilterDriver.init Z 0.

End Scenario.

(** ** The list of choices on the screen *)

Module Choices.

(** The styles of [_get_choiced_tokens]: [Token.Selected], [Token] and
    [Token.SetCursorPosition], before [pygments_token_to_classname]. *)
Inductive Style := Selected | Plain | SetCursorPosition.

(** ["%-24s" % label] *)
Definition ljust24 (s : string) : string :=
  s +:+ string_of_list_ascii (repeat (Ascii.ascii_of_nat 32) (24 - String.length s)).

(** [_append(index, label)]: the tokens of one entry. *)
Definition _append (selected_index index : Z) (label : KeyType)
  : list (Style * string) :=
  let selected := Z.eqb index selected_index in
  let style := if selected then Selected else Plain in
  [(style, if selected then " > " else "   ")]
    ++ (if selected then [(SetCursorPosition, "")] else [])
    ++ [(style, ljust24 (str label)); (Plain, newline)].

(** [for i, choice in enumerate(self.nodes): _append(i, choice)], from [index] on. *)
Fixpoint append_all (selected_index index : Z) (nodes : list KeyType)
  : list (Style * string) :=
  match nodes with
  | [] => []
  | choice :: rest =>
      _append selected_index index choice
        ++ append_all selected_index (index + 1) rest
  end.

(** [InquirerControl._get_choiced_tokens] of preferences.py: [tokens.pop()]
    takes the last line break away, and raises on an empty list. *)
Definition _get_choiced_tokens (c : Preferences.InquirerControl)
  : res (list (Style * string)) :=
  match append_all (Preferences.selected_index c) 0 (Preferences.ic_nodes c) with
  | [] => Raise IndexError
  | tokens => Ok (removelast tokens)
  end.

(** The tokens of entries the cursor is not on. *)
Definition rows (labels : list KeyType) : list (Style * string) :=
  flat_map (fun label => [(Plain, "   "); (Plain, ljust24 (str label));
                          (Plain, newline)]) labels.

End Choices.

(** ** States of preferences.py the keys can be pressed in *)

Module Wellformed.
Import Preferences.

(** Every dict of the attributes has a key and every list an entry. *)
Fixpoint populated (a : attr) : bool :=
  match a with
  | ADict items =>
      negb (match items with [] => true | _ => false end)
      && (fix all (l : list (string * attr)) : bool :=
            match l with
            | [] => true
            | (_, child) :: rest => populated child && all rest
            end) items
  | AList l => negb (match l with [] => true | _ => false end)
  | AOther => true
  end.

(** The configuration has its three sections, each a dict. *)
Definition has_sections (conf : gmap string json) : Prop :=
  forall sect, In sect ["hw_params"; "filter_params"; "devices"] ->
               exists d, conf !! sect = Some (JDict d).

(** [str(self.current_node) in ["main", "monitor", "input"]] *)
Definition is_device (current : KeyType) : bool :=
  in_lits (KStr (str current)) device_positions.

(** The control shows the nodes, there is one under the cursor, the nodes of
    a dict are keys of it, and the configuration has its sections. *)
Definition wf (a : PreferenceApp) : Prop :=
  ic_nodes (control a) = nodes a /\
  0 <= selected_index (control a) < Z.of_nat (length (nodes a)) /\
  match attributes a with
  | ADict items =>
      populated (ADict items) = true /\
      forall key, In key (nodes a) ->
                  exists s child, key = KStr s /\ assoc s items = Some child
  | AList _ => True
  | AOther => False
  end /\
  has_sections (confdict a).

(** Nothing is to be rendered: no answer is pending, or the label under the
    cursor is false in an [if]. *)
Definition idle (a : PreferenceApp) : Prop :=
  answered (control a) = false \/
  exists sel, outcome get_selection a = Ok sel /\ truthy sel = false.

(** What [get_config] loaded is a dict whose dicts and lists are not empty,
    with the keys to offer at the root of the tree. *)
Definition rooted (a : PreferenceApp) : Prop :=
  exists header,
    attr_header a = ADict header /\
    populated (ADict header) = true /\
    root a <> [] /\
    forall key, In key (root a) ->
                exists s child, key = KStr s /\ assoc s header = Some child.

(** A computation keeps a property of the state, however it ends. *)
Definition preserves {S A} (P : S -> Prop) (m : M S A) : Prop :=
  forall s, P s -> P (state_after m s).

End Wellformed.

(** * Properties *)

(** ** Running a computation *)

Lemma run_bind {S A B} (m : M S A) (k : A -> M S B) (s : S) :
  bind m k s = match m s with
               | (Ok a, s') => k a s'
               | (Raise e, s') => (Raise e, s')
               end.
Proof. reflexivity. Qed.

Lemma run_bind_ok {S A B} (m : M S A) (k : A -> M S B) (s s' : S) (a : A) :
  m s = (Ok a, s') -> bind m k s = k a s'.
Proof. intros H. unfold bind. now rewrite H. Qed.

Lemma run_bind_raise {S A B} (m : M S A) (k : A -> M S B) (s s' : S) (e : exn) :
  m s = (Raise e, s') -> bind m k s = (Raise e, s').
Proof. intros H. unfold bind. now rewrite H. Qed.

Lemma keeps_ret {S A X} (f : S -> X) (a : A) : keeps f (ret a).
Proof. intros s. reflexivity. Qed.

Lemma keeps_raise {S A X} (f : S -> X) (e : exn) : keeps f (raise (A:=A) e).
Proof. intros s. reflexivity. Qed.

Lemma keeps_gets {S A X} (f : S -> X) (g : S -> A) : keeps f (gets g).
Proof. intros s. reflexivity. Qed.

Lemma keeps_modify {S X} (f : S -> X) (g : S -> S) :
  (forall s, f (g s) = f s) -> keeps f (modify g).
Proof. intros H s. apply H. Qed.

Lemma keeps_bind {S A B X} (f : S -> X) (m : M S A) (k : A -> M S B) :
  keeps f m -> (forall a, keeps f (k a)) -> keeps f (bind m k).
Proof.
  intros Hm Hk s. unfold state_after, bind.
  specialize (Hm s). unfold state_after in Hm.
  destruct (m s) as [[a | e] s']; simpl in *.
  - rewrite <- Hm. apply Hk.
  - exact Hm.
Qed.

Lemma keeps_if {S A X} (f : S -> X) (b : bool) (m1 m2 : M S A) :
  keeps f m1 -> keeps f m2 -> keeps f (if b then m1 else m2).
Proof. destruct b; auto. Qed.

Ltac keeps_step :=
  first [ apply keeps_ret | apply keeps_raise | apply keeps_gets
        | apply keeps_modify; intros; reflexivity
        | apply keeps_bind; [ | intros ? ]
        | apply keeps_if ].

(** ** Indexing a list *)

Lemma py_index_in_range {A} (l : list A) (i : Z) :
  0 <= i < Z.of_nat (length l) -> exists x, py_index l i = Some x.
Proof.
  intros [Hlo Hhi]. unfold py_index.
  destruct (Z.leb_spec 0 i); [ | lia ].
  destruct (Z.ltb_spec i (Z.of_nat (length l))); [ | lia ].
  simpl. destruct (nth_error l (Z.to_nat i)) eqn:E; [ eauto | ].
  apply nth_error_None in E. lia.
Qed.

Lemma wrap_in_range (j n : Z) : 0 < n -> 0 <= j mod n < n.
Proof. intros H. apply Z.mod_pos_bound. exact H. Qed.

(** ** The cursor *)

Lemma preferences_cursor_wraps :
  Navigator.cursor_wraps
    (fun a => Preferences.selected_index (Preferences.control a))
    (fun a => Preferences.choice_count (Preferences.control a))
    Preferences.get_selection
    Preferences.move_cursor_down Preferences.move_cursor_up.
Proof.
  intros a Hn Hi.
  unfold outcome, state_after, Preferences.move_cursor_down,
    Preferences.move_cursor_up, Preferences.get_selection, bind, gets, modify.
  destruct (Z.eqb_spec (Preferences.choice_count (Preferences.control a)) 0) as [E | _];
    [ lia | ].
  cbn -[Z.modulo py_index].
  split.
  - pose proof (wrap_in_range (Preferences.selected_index (Preferences.control a) + 1)
                  _ Hn) as Hr.
    repeat split; try apply Hr.
    destruct (py_index_in_range (Preferences.ic_nodes (Preferences.control a)) _ Hr)
      as [k Hk].
    exists k. now rewrite Hk.
  - pose proof (wrap_in_range (Preferences.selected_index (Preferences.control a) - 1)
                  _ Hn) as Hr.
    repeat split; try apply Hr.
    destruct (py_index_in_range (Preferences.ic_nodes (Preferences.control a)) _ Hr)
      as [k Hk].
    exists k. now rewrite Hk.
Qed.

Lemma config_cursor_wraps :
  Navigator.cursor_wraps
    (fun m => Config.selected_option_index (Config.ic m))
    (fun m => Config.choice_count (Config.ic m))
    Config.get_selection
    Config.move_cursor_down Config.move_cursor_up.
Proof.
  intros m Hn Hi.
  unfold outcome, state_after, Config.move_cursor_down,
    Config.move_cursor_up, Config.get_selection, bind, gets, modify.
  destruct (Z.eqb_spec (Config.choice_count (Config.ic m)) 0) as [E | _];
    [ lia | ].
  cbn -[Z.modulo py_index].
  split.
  - pose proof (wrap_in_range (Config.selected_option_index (Config.ic m) + 1) _ Hn)
      as Hr.
    repeat split; try apply Hr.
    destruct (py_index_in_range (Config.ic_choices (Config.ic m)) _ Hr) as [k Hk].
    exists k. now rewrite Hk.
  - pose proof (wrap_in_range (Config.selected_option_index (Config.ic m) - 1) _ Hn)
      as Hr.
    repeat split; try apply Hr.
    destruct (py_index_in_range (Config.ic_choices (Config.ic m)) _ Hr) as [k Hk].
    exists k. now rewrite Hk.
Qed.

Lemma preference_the_ic (a : Preference.ConfigurationApp) (c : Preference.InquirerControl) :
  Preference.objects a !! Preference.ic a = Some c ->
  Preference.the_ic a = (Ok c, a).
Proof.
  intros H. unfold Preference.the_ic, bind, gets. simpl. now rewrite H.
Qed.

Lemma preference_update_ic (a : Preference.ConfigurationApp)
      (c : Preference.InquirerControl) f :
  Preference.objects a !! Preference.ic a = Some c ->
  Preference.update_ic f a =
    (Ok tt, Preference.set_objects (<[Preference.ic a := f c]> (Preference.objects a)) a).
Proof.
  intros H. unfold Preference.update_ic.
  rewrite (run_bind_ok _ _ _ _ _ (preference_the_ic a c H)).
  reflexivity.
Qed.

Lemma preference_lookup_updated (a : Preference.ConfigurationApp)
      (c c' : Preference.InquirerControl) :
  Preference.objects a !! Preference.ic a = Some c ->
  let a' := Preference.set_objects (<[Preference.ic a := c']> (Preference.objects a)) a in
  Preference.objects a' !! Preference.ic a' = Some c'.
Proof.
  intros H. simpl. apply list_lookup_insert_eq.
  apply lookup_lt_Some in H. exact H.
Qed.

Lemma preference_cursor_wraps :
  Navigator.cursor_wraps Navigator.ic_index Navigator.ic_count
    Preference.get_selection
    Preference.move_cursor_down Preference.move_cursor_up.
Proof.
  intros a Hn Hi.
  unfold Navigator.ic_index, Navigator.ic_count in *.
  destruct (Preference.objects a !! Preference.ic a) as [c | ] eqn:Hc; [ | lia ].
  unfold outcome, state_after, Preference.move_cursor_down, Preference.move_cursor_up.
  rewrite !(run_bind_ok _ _ _ _ _ (preference_the_ic a c Hc)).
  destruct (Z.eqb_spec (Preference.choice_count c) 0) as [E | _]; [ lia | ].
  rewrite !(preference_update_ic a c _ Hc).
  cbn [fst snd].
  split.
  - pose proof (wrap_in_range (Preference.selected_option_index c + 1) _ Hn) as Hr.
    rewrite (preference_lookup_updated a c _ Hc).
    repeat split; try apply Hr.
    destruct (py_index_in_range (Preference.ic_choices c) _ Hr) as [k Hk].
    exists k. unfold Preference.get_selection.
    rewrite (run_bind_ok _ _ _ _ _
               (preference_the_ic _ _ (preference_lookup_updated a c _ Hc))).
    cbn [Preference.ic_choices Preference.selected_option_index
         Preference.set_selected_option_index].
    now rewrite Hk.
  - pose proof (wrap_in_range (Preference.selected_option_index c - 1) _ Hn) as Hr.
    rewrite (preference_lookup_updated a c _ Hc).
    repeat split; try apply Hr.
    destruct (py_index_in_range (Preference.ic_choices c) _ Hr) as [k Hk].
    exists k. unfold Preference.get_selection.
    rewrite (run_bind_ok _ _ _ _ _
               (preference_the_ic _ _ (preference_lookup_updated a c _ Hc))).
    cbn [Preference.ic_choices Preference.selected_option_index
         Preference.set_selected_option_index].
    now rewrite Hk.
Qed.

(** C7. In each of the three wizards the cursor keys wrap modulo the number
    of choices presented: on a non-empty list of [n] choices with the cursor
    at [i] in [0, n), down moves it to [(i + 1) mod n] and up to
    [(i - 1) mod n]; the new index is in [0, n) and the selection at it
    exists. *)
Theorem cursor_moves_wrap :
  Navigator.cursor_wraps
    (fun a => Preferences.selected_index (Preferences.control a))
    (fun a => Preferences.choice_count (Preferences.control a))
    Preferences.get_selection
    Preferences.move_cursor_down Preferences.move_cursor_up /\
  Navigator.cursor_wraps Navigator.ic_index Navigator.ic_count
    Preference.get_selection
    Preference.move_cursor_down Preference.move_cursor_up /\
  Navigator.cursor_wraps
    (fun m => Config.selected_option_index (Config.ic m))
    (fun m => Config.choice_count (Config.ic m))
    Config.get_selection
    Config.move_cursor_down Config.move_cursor_up.
Proof.
  split; [ exact preferences_cursor_wraps | ].
  split; [ exact preference_cursor_wraps | exact config_cursor_wraps ].
Qed.

Lemma cursor_moves_wrap_witness :
  Preferences.ic_nodes (Preferences.control Scenario.app_rates) = [KInt 44100; KInt 48000] /\
  Preferences.selected_index (Preferences.control Scenario.app_rates) = 0 /\
  outcome Preferences.move_cursor_up Scenario.app_rates = Ok tt /\
  Preferences.selected_index
    (Preferences.control (state_after Preferences.move_cursor_up Scenario.app_rates))
  = (0 - 1) mod 2.
Proof.
  split; [ reflexivity | ].
  split; [ reflexivity | ].
  destruct (proj1 cursor_moves_wrap Scenario.app_rates) as [_ [Hout [Hidx _]]].
  - vm_compute. reflexivity.
  - vm_compute. split; [ discriminate | reflexivity ].
  - split; [ exact Hout | exact Hidx ].
Defined.

(** ** The filter driver *)

Section EngineFacts.

Context {sample : Type}.
Variable estimate : list sample -> list sample -> sample.
Variable minus : sample -> sample -> sample.
Variable rule : string -> sample -> sample ->
                list sample -> list sample -> sample -> list sample.
Variable accumulate : sample -> sample -> sample.
Variable zero : sample.
Variable transform inverse : nat -> list sample -> list sample.

Local Abbreviation adapt_sample := (FilterDriver.adapt_sample sample estimate minus rule accumulate).
Local Abbreviation adapt_block := (FilterDriver.adapt_block sample estimate minus rule accumulate).
Local Abbreviation apply_ := (FilterDriver.apply sample estimate minus rule accumulate transform inverse).
Local Abbreviation tune := (FilterDriver.tune sample estimate minus rule accumulate transform inverse).
Local Abbreviation run := (FilterDriver.run sample estimate minus rule accumulate transform inverse).
Local Abbreviation init := (FilterDriver.init sample zero).
Local Abbreviation get_filter_weights := (FilterDriver.get_filter_weights sample).
Local Abbreviation period := (FilterDriver.period sample).
Local Abbreviation filter_ := (FilterDriver.filter_ sample).

(** C9. Reading the weights returns the coefficient vector of the filter and
    leaves the driver as it was: its shape and its filter, that is the
    coefficients, the history window, the error statistic and every other
    field. *)
Theorem get_filter_weights_reads_only (self : FilterDriver.FilterDriver sample) :
  outcome get_filter_weights self = Ok (FilterDriver.w sample (filter_ self)) /\
  state_after get_filter_weights self = self.
Proof. split; reflexivity. Qed.

Lemma adapt_block_period f desired observed :
  period (snd (adapt_block f desired observed)) = period f.
Proof.
  revert f observed.
  induction desired as [ | d ds IH ]; intros f [ | x xs ]; simpl; try reflexivity.
  unfold FilterDriver.adapt_sample.
  match goal with
  | |- context [FilterDriver.adapt_block _ _ _ _ _ ?f' ds xs] =>
      specialize (IH f' xs); destruct (adapt_block f' ds xs)
  end.
  exact IH.
Qed.

Lemma apply_period desired data_in f :
  period (state_after (apply_ desired data_in) f) = period f.
Proof.
  unfold state_after, FilterDriver.apply.
  destruct (_ && _); [ | reflexivity ].
  destruct (FilterDriver.domain sample f).
  - pose proof (adapt_block_period f desired data_in) as H.
    destruct (adapt_block f desired data_in); exact H.
  - pose proof (adapt_block_period f (transform (period f) desired)
                  (transform (period f) data_in)) as H.
    destruct (adapt_block f _ _); exact H.
Qed.

Lemma tune_period desired data_in self :
  period (filter_ (state_after (tune desired data_in) self)) = period (filter_ self).
Proof.
  unfold state_after, FilterDriver.tune.
  pose proof (apply_period desired data_in (filter_ self)) as H.
  unfold state_after in H.
  destruct (apply_ desired data_in (filter_ self)); exact H.
Qed.

Lemma run_period blocks self :
  period (filter_ (snd (run self blocks))) = period (filter_ self).
Proof.
  revert self. induction blocks as [ | [d x] rest IH ]; intros self; simpl.
  - reflexivity.
  - pose proof (tune_period d x self) as Ht. unfold state_after in Ht.
    destruct (tune d x self) as [r self1]. simpl in *.
    specialize (IH self1). destruct (run self1 rest). simpl in *. congruence.
Qed.

(** C3. Whatever blocks the engine has processed since it was started, a
    call of [tune] with a desired and an observed block of [N] samples, [N]
    other than the configured period size, fails with [BlockSizeMismatch];
    nothing is processed: the driver is left as it was. *)
Theorem tune_refuses_other_block_sizes
        (settings : FilterDriver.Settings sample) (shape : nat)
        (history : list (list sample * list sample))
        (desired data_in : list sample) (N : nat) :
  length desired = N -> length data_in = N ->
  N <> FilterDriver.periodSize sample settings ->
  let self := snd (run (init settings shape) history) in
  tune desired data_in self = (Raise BlockSizeMismatch, self).
Proof.
  intros Hd Hx HN self.
  assert (Hp : period (filter_ self) = FilterDriver.periodSize sample settings).
  { unfold self. rewrite run_period. reflexivity. }
  unfold FilterDriver.tune, FilterDriver.apply.
  rewrite Hd, Hx, Hp.
  destruct (Nat.eqb_spec N (FilterDriver.periodSize sample settings)) as [E | _];
    [ contradiction | ].
  simpl. destruct self; reflexivity.
Qed.

End EngineFacts.

Lemma tune_refuses_other_block_sizes_witness :
  Scenario.tuneZ (repeat 0 200) (repeat 0 200) (Scenario.initZ Scenario.settings256 1%nat)
  = (Raise BlockSizeMismatch, Scenario.initZ Scenario.settings256 1%nat).
Proof.
  exact (tune_refuses_other_block_sizes Scenario.dot Z.sub Scenario.lms Z.add 0
           (fun _ l => l) (fun _ l => l) Scenario.settings256 1%nat []
           (repeat 0 200) (repeat 0 200) 200%nat
           eq_refl eq_refl ltac:(discriminate)).
Defined.

(** ** The routing of preferences.py *)

(** [_setval_if_key_is_node] writes at the place the table gives for the key
    and runs the post process; without a place it only runs the post
    process, and a failed write leaves the application as it was. *)
Lemma setval_table (key_prev selected : KeyType) (a : Preferences.PreferenceApp) :
  Preferences._setval_if_key_is_node key_prev selected a =
    match Routing.destination key_prev with
    | None => (Ok tt, Routing.post_process a)
    | Some d =>
        match Routing.write d (JKey selected) (Preferences.confdict a) with
        | Ok c' => (Ok tt, Routing.post_process (Preferences.set_confdict c' a))
        | Raise e => (Raise e, a)
        end
    end.
Proof.
  unfold Preferences._setval_if_key_is_node, Routing.destination.
  repeat match goal with
         | |- context [if ?b then _ else _] => destruct b
         end;
    unfold Routing.write, Preferences.conf_set2, Preferences.conf_set1, setitem1,
      bind, gets, modify, ret, raise;
    try match goal with
        | |- context [setitem2 ?s ?k ?v ?c] => destruct (setitem2 s k v c)
        end;
    reflexivity.
Qed.

Lemma in_lits_cons (k : KeyType) (s : string) (lits : list string) :
  in_lits k (s :: lits) = eq_lit k s || in_lits k lits.
Proof. reflexivity. Qed.

Lemma eq_lit_true (k : KeyType) (s : string) : eq_lit k s = true <-> k = KStr s.
Proof.
  destruct k as [s' | z | r]; simpl; try (split; [ discriminate | discriminate ]).
  rewrite String.eqb_eq. split; [ intros -> | intros [= ->] ]; reflexivity.
Qed.

(** The keys of the table, one by one. *)
Lemma destination_cases (k : KeyType) (d : Routing.Dest) :
  Routing.destination k = Some d ->
  (k = KStr "rate" /\ d = Routing.Nested "hw_params" "rate") \/
  (k = KStr "periodsize" /\ d = Routing.Nested "hw_params" "periodsize") \/
  (k = KStr "channels" /\ d = Routing.Nested "hw_params" "channels") \/
  (k = KStr "alsa" /\ d = Routing.Nested "hw_params" "formatname") \/
  (k = KStr "sounddevice" /\ d = Routing.Nested "hw_params" "formatname") \/
  (k = KStr "w" /\ d = Routing.Nested "filter_params" "w") \/
  (k = KStr "filter_domain" /\ d = Routing.Top "filter_domain") \/
  (k = KStr "filter_algo" /\ d = Routing.Top "filter_algo") \/
  (k = KStr "main" /\ d = Routing.Nested "devices" "main") \/
  (k = KStr "monitor" /\ d = Routing.Nested "devices" "monitor") \/
  (k = KStr "input" /\ d = Routing.Nested "devices" "input").
Proof.
  unfold Routing.destination, device_positions, in_lits. simpl existsb.
  repeat match goal with
         | |- context [eq_lit k ?s] =>
             let E := fresh "E" in
             destruct (eq_lit k s) eqn:E;
             [ apply eq_lit_true in E; subst k; simpl; intros [= <-]; tauto | ]
         end.
  simpl. discriminate.
Qed.

Lemma setval_route (key_prev selected : KeyType) (a : Preferences.PreferenceApp) :
  Preferences._setval_if_key_is_node key_prev selected a =
    match Routing.route key_prev (JKey selected) (Preferences.confdict a) with
    | Ok c' => (Ok tt, Routing.post_process (Preferences.set_confdict c' a))
    | Raise e => (Raise e, a)
    end.
Proof.
  rewrite setval_table. unfold Routing.route.
  destruct (Routing.destination key_prev); [ reflexivity | ].
  destruct a; reflexivity.
Qed.

Lemma setval_twice (k1 k2 v1 v2 : KeyType) (a : Preferences.PreferenceApp) :
  (do_ Preferences._setval_if_key_is_node k1 v1;
   Preferences._setval_if_key_is_node k2 v2) a =
    match Routing.route k1 (JKey v1) (Preferences.confdict a) with
    | Ok c1 =>
        match Routing.route k2 (JKey v2) c1 with
        | Ok c12 => (Ok tt, Routing.post_process (Preferences.set_confdict c12 a))
        | Raise e => (Raise e, Routing.post_process (Preferences.set_confdict c1 a))
        end
    | Raise e => (Raise e, a)
    end.
Proof.
  unfold bind. rewrite setval_route.
  destruct (Routing.route k1 (JKey v1) (Preferences.confdict a)) as [c1 | e];
    [ | reflexivity ].
  rewrite setval_route. simpl.
  destruct (Routing.route k2 (JKey v2) c1); reflexivity.
Qed.

Lemma setitem2_ok (sect k : string) (v : json) (c c' : gmap string json) :
  setitem2 sect k v c = Ok c' <->
  exists d, c !! sect = Some (JDict d) /\ c' = <[sect := JDict (<[k := v]> d)]> c.
Proof.
  unfold setitem2. split.
  - destruct (c !! sect) as [[ | | | | d] | ]; try discriminate.
    intros [= <-]. eauto.
  - intros [d [-> ->]]. reflexivity.
Qed.

Lemma write_commute (d1 d2 : Routing.Dest) (v1 v2 : json) (c c1 c12 : gmap string json) :
  Routing.apart d1 d2 ->
  Routing.write d1 v1 c = Ok c1 -> Routing.write d2 v2 c1 = Ok c12 ->
  exists c2, Routing.write d2 v2 c = Ok c2 /\ Routing.write d1 v1 c2 = Ok c12.
Proof.
  destruct d1 as [k1 | s1 k1], d2 as [k2 | s2 k2]; simpl; unfold setitem1.
  - intros Hne [= <-] [= <-]. eexists; split; [ reflexivity | ].
    f_equal. apply insert_insert_ne. congruence.
  - intros Hne [= <-] H2. apply setitem2_ok in H2 as [d [Hd ->]].
    rewrite lookup_insert_ne in Hd by exact Hne.
    eexists; split; [ apply setitem2_ok; eauto | ].
    f_equal. apply insert_insert_ne. congruence.
  - intros Hne H1 [= <-]. apply setitem2_ok in H1 as [d [Hd ->]].
    eexists; split; [ reflexivity | ].
    apply setitem2_ok. exists d. split.
    + rewrite lookup_insert_ne by congruence. exact Hd.
    + apply insert_insert_ne. congruence.
  - intros Hne H1 H2. apply setitem2_ok in H1 as [d [Hd ->]].
    apply setitem2_ok in H2 as [d' [Hd' ->]].
    destruct (decide (s1 = s2)) as [<- | Hs].
    + rewrite lookup_insert_eq in Hd'. injection Hd' as <-.
      destruct Hne as [Hne | Hne]; [ congruence | ].
      eexists; split; [ apply setitem2_ok; eauto | ].
      apply setitem2_ok. eexists. split; [ apply lookup_insert_eq | ].
      rewrite !insert_insert_eq. do 2 f_equal. apply insert_insert_ne. congruence.
    + rewrite lookup_insert_ne in Hd' by exact Hs.
      eexists; split; [ apply setitem2_ok; eauto | ].
      apply setitem2_ok. exists d. split.
      * rewrite lookup_insert_ne by congruence. exact Hd.
      * apply insert_insert_ne. congruence.
Qed.

(** Two keys of the table are written to places apart from each other, the
    two names of the format excepted. *)
Lemma apart_table (k1 k2 : KeyType) (d1 d2 : Routing.Dest) :
  k1 <> k2 ->
  ~ (Routing.names_format k1 = true /\ Routing.names_format k2 = true) ->
  Routing.destination k1 = Some d1 -> Routing.destination k2 = Some d2 ->
  Routing.apart d1 d2.
Proof.
  intros Hne Hfmt H1 H2.
  apply destination_cases in H1. apply destination_cases in H2.
  decompose [or and] H1; decompose [or and] H2; subst; clear H1 H2;
    try congruence;
    try (exfalso; apply Hfmt; split; reflexivity);
    simpl;
    first [ discriminate | left; discriminate | right; discriminate ].
Qed.

Lemma route_commute (k1 k2 : KeyType) (v1 v2 : json) (c c1 c12 : gmap string json) :
  k1 <> k2 ->
  ~ (Routing.names_format k1 = true /\ Routing.names_format k2 = true) ->
  Routing.route k1 v1 c = Ok c1 -> Routing.route k2 v2 c1 = Ok c12 ->
  exists c2, Routing.route k2 v2 c = Ok c2 /\ Routing.route k1 v1 c2 = Ok c12.
Proof.
  intros Hne Hfmt. unfold Routing.route.
  destruct (Routing.destination k1) as [d1 | ] eqn:E1,
           (Routing.destination k2) as [d2 | ] eqn:E2.
  - apply write_commute. eapply apart_table; eauto.
  - intros H1 [= <-]. eauto.
  - intros [= <-] H2. eauto.
  - intros [= <-] [= <-]. eauto.
Qed.

Lemma write_read (d : Routing.Dest) (v : json) (c c' : gmap string json) :
  Routing.write d v c = Ok c' -> Routing.read d c' = Some v.
Proof.
  destruct d as [k | sect k]; simpl; unfold setitem1.
  - intros [= <-]. apply lookup_insert_eq.
  - intros H. apply setitem2_ok in H as [d [_ ->]].
    rewrite lookup_insert_eq. apply lookup_insert_eq.
Qed.

Lemma write_again (d : Routing.Dest) (v1 v2 : json) (c c1 : gmap string json) :
  Routing.write d v1 c = Ok c1 ->
  exists c2, Routing.write d v2 c1 = Ok c2 /\ Routing.write d v2 c = Ok c2.
Proof.
  destruct d as [k | sect k]; simpl; unfold setitem1.
  - intros [= <-]. eexists; split; [ reflexivity | ].
    now rewrite insert_insert_eq.
  - intros H. apply setitem2_ok in H as [d [Hd ->]].
    eexists; split.
    + apply setitem2_ok. eexists; split; [ apply lookup_insert_eq | reflexivity ].
    + apply setitem2_ok. exists d. split; [ exact Hd | ].
      now rewrite !insert_insert_eq.
Qed.

(** C6, as the code has it. Two routings of distinct keys, other than the two
    names of the format ([alsa] and [sounddevice], both written to
    [hw_params.formatname]), that succeed in one order succeed in the other
    and leave the same application, hence the same configuration. Routing a
    key of the table twice, when the first routing succeeds, succeeds and
    leaves the second value at the place of the key: the configuration a
    single routing of the second value gives. *)
Theorem routing_commutes_and_last_write_wins :
  (forall (k1 k2 v1 v2 : KeyType) (a : Preferences.PreferenceApp),
      k1 <> k2 ->
      ~ (Routing.names_format k1 = true /\ Routing.names_format k2 = true) ->
      outcome (do_ Preferences._setval_if_key_is_node k1 v1;
               Preferences._setval_if_key_is_node k2 v2) a = Ok tt ->
      (do_ Preferences._setval_if_key_is_node k2 v2;
       Preferences._setval_if_key_is_node k1 v1) a
      = (do_ Preferences._setval_if_key_is_node k1 v1;
         Preferences._setval_if_key_is_node k2 v2) a) /\
  (forall (k v1 v2 : KeyType) (d : Routing.Dest) (a : Preferences.PreferenceApp),
      Routing.destination k = Some d ->
      outcome (Preferences._setval_if_key_is_node k v1) a = Ok tt ->
      let twice := do_ Preferences._setval_if_key_is_node k v1;
                   Preferences._setval_if_key_is_node k v2 in
      outcome twice a = Ok tt /\
      Routing.read d (Preferences.confdict (state_after twice a)) = Some (JKey v2) /\
      state_after twice a = state_after (Preferences._setval_if_key_is_node k v2) a).
Proof.
  split.
  - intros k1 k2 v1 v2 a Hne Hfmt Hok.
    unfold outcome in Hok. rewrite setval_twice in Hok. rewrite !setval_twice.
    destruct (Routing.route k1 (JKey v1) (Preferences.confdict a)) as [c1 | e] eqn:E1;
      [ | discriminate ].
    destruct (Routing.route k2 (JKey v2) c1) as [c12 | e] eqn:E2; [ | discriminate ].
    destruct (route_commute _ _ _ _ _ _ _ Hne Hfmt E1 E2) as [c2 [E3 E4]].
    rewrite E3, E4. reflexivity.
  - intros k v1 v2 d a Hd Hok twice.
    unfold outcome, state_after, twice in *. rewrite setval_twice.
    rewrite setval_route in *. unfold Routing.route in *. rewrite Hd in *.
    destruct (Routing.write d (JKey v1) (Preferences.confdict a)) as [c1 | e] eqn:E1;
      [ | discriminate ].
    destruct (write_again d (JKey v1) (JKey v2) _ _ E1) as [c2 [E2 E3]].
    rewrite E2, E3. simpl.
    repeat split. eapply write_read; eauto.
Qed.

Lemma routing_commutes_and_last_write_wins_witness :
  (do_ Preferences._setval_if_key_is_node (KStr "filter_domain") (KStr "time");
   Preferences._setval_if_key_is_node (KStr "rate") (KInt 48000)) Scenario.app1
  = (do_ Preferences._setval_if_key_is_node (KStr "rate") (KInt 48000);
     Preferences._setval_if_key_is_node (KStr "filter_domain") (KStr "time")) Scenario.app1
  /\
  Routing.read (Routing.Nested "hw_params" "rate")
    (Preferences.confdict
       (state_after
          (do_ Preferences._setval_if_key_is_node (KStr "rate") (KInt 44100);
           Preferences._setval_if_key_is_node (KStr "rate") (KInt 48000))
          Scenario.app1))
  = Some (JKey (KInt 48000)).
Proof.
  split.
  - apply (proj1 routing_commutes_and_last_write_wins).
    + discriminate.
    + intros [H _]. vm_compute in H. discriminate H.
    + vm_compute. reflexivity.
  - apply (proj2 routing_commutes_and_last_write_wins
             (KStr "rate") (KInt 44100) (KInt 48000)
             (Routing.Nested "hw_params" "rate") Scenario.app1).
    + reflexivity.
    + vm_compute. reflexivity.
Defined.

(** The two names of the format are distinct keys, each routing succeeds, and
    the order of the two decides the format the configuration holds. *)
Lemma routing_order_counterexample :
  KStr "alsa" <> KStr "sounddevice" /\
  outcome (do_ Preferences._setval_if_key_is_node (KStr "alsa") (KStr "alsa");
           Preferences._setval_if_key_is_node (KStr "sounddevice") (KStr "sounddevice"))
          Scenario.app1 = Ok tt /\
  outcome (do_ Preferences._setval_if_key_is_node (KStr "sounddevice") (KStr "sounddevice");
           Preferences._setval_if_key_is_node (KStr "alsa") (KStr "alsa"))
          Scenario.app1 = Ok tt /\
  Preferences.confdict
    (state_after
       (do_ Preferences._setval_if_key_is_node (KStr "alsa") (KStr "alsa");
        Preferences._setval_if_key_is_node (KStr "sounddevice") (KStr "sounddevice"))
       Scenario.app1)
  <> Preferences.confdict
       (state_after
          (do_ Preferences._setval_if_key_is_node (KStr "sounddevice") (KStr "sounddevice");
           Preferences._setval_if_key_is_node (KStr "alsa") (KStr "alsa"))
          Scenario.app1).
Proof.
  split; [ discriminate | ].
  split; [ vm_compute; reflexivity | ].
  split; [ vm_compute; reflexivity | ].
  intros H.
  apply (f_equal (Routing.read (Routing.Nested "hw_params" "formatname"))) in H.
  vm_compute in H. discriminate H.
Qed.

(** ** The breadcrumb *)

Create HintDb keeps.

Ltac keeps_auto :=
  repeat first
    [ keeps_step
    | solve [ auto with keeps ]
    | match goal with
      | |- keeps _ (match ?x with _ => _ end) => destruct x
      end ].

Lemma preferences_conf_set2_breadcrumb sect k v :
  keeps Preferences.breadcrumb (Preferences.conf_set2 sect k v).
Proof.
  unfold Preferences.conf_set2. apply keeps_bind; [ keeps_auto | intros c ].
  destruct (setitem2 sect k (JKey v) c); keeps_auto.
Qed.

Lemma preferences_conf_set1_breadcrumb k v :
  keeps Preferences.breadcrumb (Preferences.conf_set1 k v).
Proof. unfold Preferences.conf_set1, setitem1. keeps_auto. Qed.

#[local] Hint Resolve preferences_conf_set2_breadcrumb
  preferences_conf_set1_breadcrumb : keeps.

Lemma getitem_keeps {S X} (f : S -> X) items key : keeps f (getitem items key).
Proof. unfold getitem. keeps_auto. Qed.

#[local] Hint Resolve getitem_keeps : keeps.

Lemma setval_breadcrumb key_prev selected :
  keeps Preferences.breadcrumb (Preferences._setval_if_key_is_node key_prev selected).
Proof. unfold Preferences._setval_if_key_is_node. keeps_auto. Qed.

Lemma set_child_control_breadcrumb key attributes_ :
  keeps Preferences.breadcrumb (Preferences.set_child_control key attributes_).
Proof. unfold Preferences.set_child_control. keeps_auto. Qed.

#[local] Hint Resolve setval_breadcrumb set_child_control_breadcrumb : keeps.

Lemma work_before_node_breadcrumb snddevs key attr_ :
  keeps Preferences.breadcrumb (Preferences._work_before_node snddevs key attr_).
Proof. unfold Preferences._work_before_node. keeps_auto. Qed.

#[local] Hint Resolve work_before_node_breadcrumb : keeps.

Lemma select_index_breadcrumb snddevs key attributes_ :
  keeps Preferences.breadcrumb (Preferences.select_index snddevs key attributes_).
Proof. unfold Preferences.select_index. keeps_auto. Qed.

Lemma initialize_breadcrumb : keeps Preferences.breadcrumb Preferences._initialize.
Proof. unfold Preferences._initialize, Preferences.set_header. keeps_auto. Qed.

Lemma get_selection_pure (a : Preferences.PreferenceApp) :
  state_after Preferences.get_selection a = a.
Proof.
  unfold state_after, Preferences.get_selection, bind, gets. simpl.
  destruct (py_index _ _); reflexivity.
Qed.

Lemma get_selection_run (a : Preferences.PreferenceApp) (sel : KeyType) :
  outcome Preferences.get_selection a = Ok sel ->
  Preferences.get_selection a = (Ok sel, a).
Proof.
  intros Hs. pose proof (get_selection_pure a) as Hp.
  unfold outcome in Hs. unfold state_after in Hp.
  destruct (Preferences.get_selection a). simpl in *. congruence.
Qed.

(** Rendering the prompt line once a truthy label is selected appends the
    label to the breadcrumb, whatever [select_index] then does with it. *)
Lemma get_prompt_tokens_breadcrumb snddevs (a : Preferences.PreferenceApp)
      (sel : KeyType) :
  Preferences.answered (Preferences.control a) = true ->
  outcome Preferences.get_selection a = Ok sel ->
  Preferences.breadcrumb (state_after (Preferences.get_prompt_tokens snddevs) a)
  = Navigator.crumb (Preferences.breadcrumb a) sel.
Proof.
  intros Ha Hs. apply get_selection_run in Hs as Hsel.
  unfold state_after, Preferences.get_prompt_tokens, Navigator.crumb,
    Navigator.append_label.
  unfold bind at 1. unfold gets at 1. rewrite Ha.
  unfold bind at 1. unfold bind at 1. rewrite Hsel. unfold ret at 1.
  destruct (truthy sel).
  2:{ unfold bind, gets, ret. reflexivity. }
  unfold bind, gets, modify, ret.
  destruct (String.eqb (Preferences.breadcrumb a) "") eqn:Eb;
    cbn [negb]; cbv beta iota zeta.
  all: match goal with
       | |- context [Preferences.select_index ?d ?k ?x ?s] =>
           pose proof (select_index_breadcrumb d k x s) as Hk;
           unfold state_after in Hk;
           destruct (Preferences.select_index d k x s) as [[ [] | e ] s']
       end; simpl in *; exact Hk.
Qed.

Lemma move_cursor_down_breadcrumb :
  keeps Preferences.breadcrumb Preferences.move_cursor_down.
Proof. unfold Preferences.move_cursor_down. keeps_auto. Qed.

Lemma move_cursor_up_breadcrumb :
  keeps Preferences.breadcrumb Preferences.move_cursor_up.
Proof. unfold Preferences.move_cursor_up. keeps_auto. Qed.

#[local] Hint Resolve move_cursor_down_breadcrumb move_cursor_up_breadcrumb : keeps.

Lemma press_down_breadcrumb (n : nat) :
  keeps Preferences.breadcrumb (Navigator.press_down n).
Proof. induction n as [ | n IH ]; simpl; keeps_auto. Qed.

Lemma set_value_run (a : Preferences.PreferenceApp) :
  Preferences.set_value a =
    (Ok tt,
     Preferences.set_control
       (Preferences.set_answered true (Preferences.control a)) a).
Proof. reflexivity. Qed.

Lemma handler_breadcrumb (k : Navigator.Key) :
  keeps Preferences.breadcrumb (Navigator.handler k).
Proof. destruct k; simpl; unfold Preferences.set_value; keeps_auto. Qed.

#[local] Hint Resolve handler_breadcrumb : keeps.

(** What is pending is read off the control, which is left as it is. *)
Lemma pending_run (a : Preferences.PreferenceApp) :
  Navigator.pending a =
    if Preferences.answered (Preferences.control a) then
      match py_index (Preferences.ic_nodes (Preferences.control a))
                     (Preferences.selected_index (Preferences.control a)) with
      | Some sel => (Ok (if truthy sel then Some sel else None), a)
      | None => (Raise IndexError, a)
      end
    else (Ok None, a).
Proof.
  unfold Navigator.pending, Preferences.get_selection, bind, gets, ret, raise.
  destruct (Preferences.answered (Preferences.control a)); [ | reflexivity ].
  destruct (py_index _ _); reflexivity.
Qed.

(** With no answer pending the prompt line only shows the breadcrumb. *)
Lemma get_prompt_tokens_waiting (snddevs : list string) (a : Preferences.PreferenceApp) :
  Preferences.answered (Preferences.control a) = false ->
  exists toks, Preferences.get_prompt_tokens snddevs a = (Ok toks, a).
Proof.
  intros Ha. unfold Preferences.get_prompt_tokens, bind, gets, ret. rewrite Ha.
  eexists. reflexivity.
Qed.

Lemma trail_app (b : string) (xs ys : list KeyType) :
  Navigator.trail b (xs ++ ys) = Navigator.trail (Navigator.trail b xs) ys.
Proof. unfold Navigator.trail. apply fold_left_app. Qed.

(** A redraw appends the label it resolves, and nothing else. *)
Lemma redraw_crumb (snddevs : list string) (a : Preferences.PreferenceApp)
      (r : option KeyType) :
  outcome (Navigator.redraw snddevs) a = Ok r ->
  Preferences.breadcrumb (state_after (Navigator.redraw snddevs) a)
  = Navigator.trail (Preferences.breadcrumb a) (Navigator.resolved r) /\
  Forall (fun label => truthy label = true) (Navigator.resolved r).
Proof.
  unfold outcome, state_after, Navigator.redraw.
  rewrite run_bind, pending_run.
  destruct (Preferences.answered (Preferences.control a)) eqn:Ha.
  - destruct (py_index _ _) as [sel | ] eqn:Hp; [ | discriminate ].
    assert (Hsel : outcome Preferences.get_selection a = Ok sel).
    { unfold outcome, Preferences.get_selection, bind, gets. rewrite Hp. reflexivity. }
    pose proof (get_prompt_tokens_breadcrumb snddevs a sel Ha Hsel) as Hb.
    unfold state_after in Hb. rewrite run_bind.
    destruct (Preferences.get_prompt_tokens snddevs a) as [[toks | e] a'];
      [ | discriminate ].
    unfold ret. simpl. intros [= <-]. simpl in Hb. rewrite Hb.
    unfold Navigator.crumb. destruct (truthy sel) eqn:Ht; simpl.
    + unfold Navigator.trail, Navigator.crumb. simpl. rewrite Ht.
      split; [ reflexivity | ]. constructor; [ exact Ht | constructor ].
    + split; [ reflexivity | constructor ].
  - destruct (get_prompt_tokens_waiting snddevs a Ha) as [toks Htoks].
    rewrite (run_bind_ok _ _ _ _ _ Htoks). unfold ret. simpl.
    intros [= <-]. split; [ reflexivity | constructor ].
Qed.

Lemma press_crumb (snddevs : list string) (k : Navigator.Key)
      (a : Preferences.PreferenceApp) (r : option KeyType) :
  outcome (Navigator.press snddevs k) a = Ok r ->
  Preferences.breadcrumb (state_after (Navigator.press snddevs k) a)
  = Navigator.trail (Preferences.breadcrumb a) (Navigator.resolved r) /\
  Forall (fun label => truthy label = true) (Navigator.resolved r).
Proof.
  unfold outcome, state_after, Navigator.press. rewrite run_bind.
  pose proof (handler_breadcrumb k a) as Hk. unfold state_after in Hk.
  destruct (Navigator.handler k a) as [[ [] | e ] a1]; [ | discriminate ].
  simpl in Hk. rewrite <- Hk. apply redraw_crumb.
Qed.

(** ** Computations that record what they resolve *)

Lemma records_ret (pre : list KeyType) : Navigator.records pre (ret pre).
Proof.
  intros a labels [= <-]. exists []. rewrite app_nil_r.
  split; [ reflexivity | ]. split; [ reflexivity | constructor ].
Qed.

Lemma records_bind {A} (pre : list KeyType) (m : Preferences.App A)
      (f : A -> list KeyType) (k : A -> Preferences.App (list KeyType)) :
  (forall a x, outcome m a = Ok x ->
               Preferences.breadcrumb (state_after m a)
               = Navigator.trail (Preferences.breadcrumb a) (f x) /\
               Forall (fun label => truthy label = true) (f x)) ->
  (forall x, Navigator.records (pre ++ f x) (k x)) ->
  Navigator.records pre (bind m k).
Proof.
  intros Hm Hk a labels. unfold outcome, state_after. rewrite run_bind.
  specialize (Hm a). unfold outcome, state_after in Hm.
  destruct (m a) as [[x | e] a1]; [ | discriminate ].
  destruct (Hm x eq_refl) as [Hb1 Hf1]. simpl in Hb1.
  intros Hout. destruct (Hk x a1 labels Hout) as [more [-> [Hb2 Hf2]]].
  exists (f x ++ more). split; [ symmetry; apply app_assoc | ].
  split.
  - rewrite trail_app, <- Hb1. exact Hb2.
  - apply Forall_app. split; assumption.
Qed.

Lemma records_keeps {A} (pre : list KeyType) (m : Preferences.App A)
      (k : A -> Preferences.App (list KeyType)) :
  keeps Preferences.breadcrumb m ->
  (forall x, Navigator.records pre (k x)) ->
  Navigator.records pre (bind m k).
Proof.
  intros Hm Hk. apply (records_bind pre m (fun _ => [])).
  - intros a x _. rewrite (Hm a). split; [ reflexivity | constructor ].
  - intros x. rewrite app_nil_r. apply Hk.
Qed.

Lemma records_more (pre : list KeyType) (m : Preferences.App (list KeyType)) :
  Navigator.records [] m ->
  Navigator.records pre (do more <- m; ret (pre ++ more)).
Proof.
  intros Hm. apply (records_bind pre m (fun more => more)).
  - intros a x Hout. destruct (Hm a x Hout) as [more [-> H]]. exact H.
  - intros x. apply records_ret.
Qed.

Lemma run_keys_records (snddevs : list string) (keys : list Navigator.Key) :
  Navigator.records [] (Navigator.run_keys snddevs keys).
Proof.
  induction keys as [ | k rest IH ]; simpl Navigator.run_keys.
  - apply records_ret.
  - apply records_keeps; [ keeps_auto | intros x ].
    destruct x; [ apply records_ret | ].
    apply (records_bind [] _ Navigator.resolved); [ apply press_crumb | intros r ].
    apply records_more. exact IH.
Qed.

Lemma run_records (snddevs : list string) (keys : list Navigator.Key) :
  Navigator.records [] (Navigator.run snddevs keys).
Proof.
  unfold Navigator.run.
  apply records_keeps; [ keeps_auto | intros _ ].
  apply (records_bind [] _ Navigator.resolved); [ apply redraw_crumb | intros r ].
  apply records_more. apply run_keys_records.
Qed.

Lemma main_records (snddevs : list string) (rounds : list (list Navigator.Key * bool)) :
  Navigator.records [] (Navigator.main snddevs rounds).
Proof.
  induction rounds as [ | [keys again] rest IH ]; simpl Navigator.main.
  - apply records_ret.
  - apply records_keeps; [ keeps_auto | intros w ].
    destruct w; [ | apply records_ret ].
    apply (records_bind [] _ (fun labels => labels)).
    { intros a x Hout. destruct (run_records snddevs keys a x Hout) as [more [-> H]].
      exact H. }
    intros labels. simpl.
    apply records_keeps; [ keeps_auto | intros x ].
    destruct x; [ | apply records_ret ].
    apply records_keeps; [ keeps_auto | intros _ ].
    apply records_keeps.
    { destruct again; simpl; [ apply initialize_breadcrumb | keeps_auto ]. }
    intros _. apply records_more. exact IH.
Qed.
Lemma preference_conf_set2_breadcrumb sect k v :
  keeps Preference.breadcrumb (Preference.conf_set2 sect k v).
Proof.
  unfold Preference.conf_set2. apply keeps_bind; [ keeps_auto | intros c ].
  destruct (setitem2 sect k (JKey v) c); keeps_auto.
Qed.

Lemma preference_conf_set1_breadcrumb k v :
  keeps Preference.breadcrumb (Preference.conf_set1 k v).
Proof. unfold Preference.conf_set1, setitem1. keeps_auto. Qed.

Lemma guess_breadcrumb answer : keeps Preference.breadcrumb (Preference.guess answer).
Proof. unfold Preference.guess. keeps_auto. Qed.

#[local] Hint Resolve preference_conf_set2_breadcrumb
  preference_conf_set1_breadcrumb guess_breadcrumb : keeps.

Lemma pref_conf_breadcrumb answer choice key :
  keeps Preference.breadcrumb (Preference._pref_conf answer choice key).
Proof. unfold Preference._pref_conf. keeps_auto. Qed.

Lemma get_ic_child_breadcrumb key attributes_ :
  keeps Preference.breadcrumb (Preference.get_ic_child key attributes_).
Proof. unfold Preference.get_ic_child, Preference.alloc. keeps_auto. Qed.

#[local] Hint Resolve pref_conf_breadcrumb get_ic_child_breadcrumb : keeps.

Lemma select_item_breadcrumb answer key attributes_ :
  keeps Preference.breadcrumb (Preference.select_item answer key attributes_).
Proof. unfold Preference.select_item. keeps_auto. Qed.

(** The prompt line of preference.py appends every selected label. *)
Lemma preference_get_prompt_tokens_breadcrumb (answer : bool)
      (a : Preference.ConfigurationApp) (c : Preference.InquirerControl)
      (sel : KeyType) :
  Preference.objects a !! Preference.ic a = Some c ->
  Preference.answered c = true ->
  py_index (Preference.ic_choices c) (Preference.selected_option_index c) = Some sel ->
  Preference.breadcrumb (state_after (Preference.get_prompt_tokens answer) a)
  = Navigator.append_label (Preference.breadcrumb a) sel.
Proof.
  intros Hc Ha Hs.
  unfold state_after, Preference.get_prompt_tokens, Navigator.append_label.
  rewrite (run_bind_ok _ _ _ _ _ (preference_the_ic a c Hc)). rewrite Ha.
  unfold Preference.get_selection.
  rewrite run_bind. rewrite (run_bind_ok _ _ _ _ _ (preference_the_ic a c Hc)).
  rewrite Hs.
  unfold bind, gets, modify, ret.
  destruct (String.eqb (Preference.breadcrumb a) "") eqn:Eb;
    cbn [negb]; cbv beta iota zeta.
  all: match goal with
       | |- context [Preference.select_item ?b ?k ?x ?s] =>
           pose proof (select_item_breadcrumb b k x s) as Hk;
           unfold state_after in Hk;
           destruct (Preference.select_item b k x s) as [[ [] | e ] s']
       end; simpl in *; exact Hk.
Qed.

(** C4, as the code has it. Keys are read one at a time and the screen is
    redrawn after each; a redraw resolves the label under the cursor when an
    answer is pending and the label holds in an [if], and no other. Whatever
    keys are typed, in one round or in several, if nothing raises then the
    breadcrumb is the text of every label resolved, in that order, each
    after a space and joined by [" >"]: the name of the parameter and the
    leaf value resolved last are part of it. No step resets it: the post
    process of a resolution keeps it, and so does [_initialize], which puts
    the navigator back at the root of the tree for the next round. In
    preference.py too the prompt line appends the selected label, and the
    dialog that ends a round keeps the breadcrumb. *)
Theorem breadcrumb_records_every_choice :
  (forall snddevs (rounds : list (list Navigator.Key * bool))
          (a : Preferences.PreferenceApp) (labels : list KeyType),
      outcome (Navigator.main snddevs rounds) a = Ok labels ->
      Preferences.breadcrumb (state_after (Navigator.main snddevs rounds) a)
      = Navigator.trail (Preferences.breadcrumb a) labels /\
      Forall (fun label => truthy label = true) labels) /\
  (forall snddevs (keys : list Navigator.Key)
          (a : Preferences.PreferenceApp) (labels : list KeyType),
      outcome (Navigator.run snddevs keys) a = Ok labels ->
      Preferences.breadcrumb (state_after (Navigator.run snddevs keys) a)
      = Navigator.trail (Preferences.breadcrumb a) labels /\
      Forall (fun label => truthy label = true) labels) /\
  (forall snddevs (a : Preferences.PreferenceApp) (r : option KeyType),
      outcome (Navigator.redraw snddevs) a = Ok r ->
      let c := Preferences.control a in
      r = (if Preferences.answered c then
             match py_index (Preferences.ic_nodes c) (Preferences.selected_index c) with
             | Some sel => if truthy sel then Some sel else None
             | None => None
             end
           else None) /\
      Preferences.breadcrumb (state_after (Navigator.redraw snddevs) a)
      = match r with
        | Some sel => Navigator.append_label (Preferences.breadcrumb a) sel
        | None => Preferences.breadcrumb a
        end) /\
  (forall (key_prev selected : KeyType) (a : Preferences.PreferenceApp),
      Preferences.breadcrumb
        (state_after (Preferences._setval_if_key_is_node key_prev selected) a)
      = Preferences.breadcrumb a) /\
  (forall a : Preferences.PreferenceApp,
      let back := state_after Preferences._initialize a in
      Preferences.attributes back = Preferences.attr_header a /\
      Preferences.nodes back = Preferences.root a /\
      Preferences.breadcrumb back = Preferences.breadcrumb a) /\
  (forall (answer : bool) (a : Preference.ConfigurationApp)
          (c : Preference.InquirerControl) (sel : KeyType),
      Preference.objects a !! Preference.ic a = Some c ->
      Preference.answered c = true ->
      py_index (Preference.ic_choices c) (Preference.selected_option_index c)
        = Some sel ->
      Preference.breadcrumb (state_after (Preference.get_prompt_tokens answer) a)
      = Navigator.append_label (Preference.breadcrumb a) sel) /\
  (forall (answer : bool) (a : Preference.ConfigurationApp),
      Preference.breadcrumb (state_after (Preference.guess answer) a)
      = Preference.breadcrumb a).
Proof.
  split; [ | split; [ | split; [ | split; [ | split; [ | split ] ] ] ] ].
  - intros snddevs rounds a labels Hout.
    destruct (main_records snddevs rounds a labels Hout) as [more [-> H]]. exact H.
  - intros snddevs keys a labels Hout.
    destruct (run_records snddevs keys a labels Hout) as [more [-> H]]. exact H.
  - intros snddevs a r Hout c.
    destruct (redraw_crumb snddevs a r Hout) as [Hb Ht]. split.
    + unfold outcome, Navigator.redraw in Hout. rewrite run_bind, pending_run in Hout.
      fold c in Hout. destruct (Preferences.answered c).
      * destruct (py_index _ _) as [sel | ]; [ | discriminate ].
        rewrite run_bind in Hout.
        destruct (Preferences.get_prompt_tokens snddevs a) as [[toks | e] a'];
          [ | discriminate ].
        injection Hout as <-. reflexivity.
      * rewrite run_bind in Hout.
        destruct (Preferences.get_prompt_tokens snddevs a) as [[toks | e] a'];
          [ | discriminate ].
        injection Hout as <-. reflexivity.
    + rewrite Hb. destruct r as [sel | ]; [ | reflexivity ].
      apply Forall_inv in Ht. unfold Navigator.trail, Navigator.crumb. simpl.
      rewrite Ht. reflexivity.
  - intros key_prev selected. apply setval_breadcrumb.
  - intros a. repeat split.
  - apply preference_get_prompt_tokens_breadcrumb.
  - intros answer. apply guess_breadcrumb.
Qed.

Lemma breadcrumb_records_every_choice_witness :
  let session := Navigator.main [] [([Navigator.Enter; Navigator.Enter;
                                      Navigator.Down; Navigator.Enter], true)] in
  Preferences.breadcrumb (state_after session Scenario.app0)
  = Navigator.trail "" [KStr "hw_params"; KStr "rate"; KInt 48000] /\
  Forall (fun label => truthy label = true) [KStr "hw_params"; KStr "rate"; KInt 48000].
Proof.
  apply (proj1 breadcrumb_records_every_choice []
           [([Navigator.Enter; Navigator.Enter; Navigator.Down; Navigator.Enter], true)]
           Scenario.app0).
  vm_compute. reflexivity.
Defined.

(** On the schema [{hw_params: {rate: [44100, 48000]}}] the round that
    chooses [hw_params], [rate] and [48000] resolves with the leaf value in
    the breadcrumb, and the breadcrumb is not empty once [main] has put the
    navigator back at the root for the next round. *)
Lemma breadcrumb_counterexample :
  let keys := [Navigator.Enter; Navigator.Enter; Navigator.Down; Navigator.Enter] in
  let resolved := state_after (Navigator.run [] keys) Scenario.app0 in
  let back := state_after (Navigator.main [] [(keys, true)]) Scenario.app0 in
  outcome (Navigator.run [] keys) Scenario.app0
    = Ok [KStr "hw_params"; KStr "rate"; KInt 48000] /\
  Preferences.all_done resolved = true /\
  Preferences.exited resolved = true /\
  Preferences.breadcrumb resolved = " hw_params > rate > 48000" /\
  Preferences.breadcrumb resolved <> Navigator.trail "" [KStr "hw_params"; KStr "rate"] /\
  Preferences.breadcrumb resolved <> Navigator.trail "" [KStr "hw_params"] /\
  Preferences.attributes back = ADict Scenario.schema /\
  Preferences.nodes back = [KStr "hw_params"] /\
  Preferences.breadcrumb back <> "".
Proof.
  vm_compute. repeat split; discriminate.
Qed.

(** The enter key on a label that is false in an [if] resolves nothing: the
    answer stays pending, and the next cursor key that reaches a label that
    holds resolves that one. *)
Lemma false_label_waits_for_the_cursor :
  let header := [("hw_params", ADict [("channels", AList [KInt 0; KInt 1; KInt 2])])] in
  let a := Navigator.start Scenario.sections header in
  let enters := [Navigator.Enter; Navigator.Enter; Navigator.Enter] in
  outcome (Navigator.run [] enters) a = Ok [KStr "hw_params"; KStr "channels"] /\
  Preferences.exited (state_after (Navigator.run [] enters) a) = false /\
  outcome (Navigator.run [] (enters ++ [Navigator.Down])) a
    = Ok [KStr "hw_params"; KStr "channels"; KInt 1] /\
  Preferences.breadcrumb (state_after (Navigator.run [] (enters ++ [Navigator.Down])) a)
    = " hw_params > channels > 1" /\
  Preferences.exited (state_after (Navigator.run [] (enters ++ [Navigator.Down])) a)
    = true.
Proof. vm_compute. repeat split. Qed.

(** ** Resolution in preferences.py *)

(** A choice in a list, outside the device lists, is routed under itself: the
    key handed to [_setval_if_key_is_node] is the value that was chosen, not
    the name of the parameter the list belongs to. *)
Lemma select_index_leaf snddevs (v : KeyType) (l : list KeyType)
      (a : Preferences.PreferenceApp) :
  in_lits (KStr (str (Preferences.current_node a))) device_positions = false ->
  truthy v = true ->
  Preferences.select_index snddevs v (AList l) a
  = Preferences._setval_if_key_is_node v v
      (Preferences.set_attributes (AList [])
         (Preferences.set_current_node v a)).
Proof.
  intros Hcur Hv.
  unfold Preferences.select_index, Preferences._work_before_node.
  unfold bind at 1. unfold bind at 1. unfold gets at 1.
  rewrite Hcur.
  unfold bind at 1. unfold bind at 1. unfold modify at 1.
  unfold bind at 1. unfold modify at 1. unfold ret at 1.
  rewrite Hv. reflexivity.
Qed.

(** C1. On the schema [{hw_params: {rate: [44100, 48000]}}] with a
    configuration whose rate is 44100, the round that chooses [hw_params],
    [rate] and [48000] resolves, but the key handed to the routing is 48000,
    which the table does not know: the configuration is the one before the
    round and its rate is still 44100. Choosing [rate] at the root itself
    raises [KeyError]. In preference.py the first choice raises
    [AttributeError], [current_choice] never having been assigned, and the
    configuration is left as it was. *)
Theorem choosing_rate_48000_leaves_rate :
  let round := Navigator.walk [] [0; 0; 1]%nat in
  let a := state_after round Scenario.app0 in
  outcome round Scenario.app0 = Ok [KStr "hw_params"; KStr "rate"; KInt 48000] /\
  Preferences.all_done a = true /\
  Preferences.current_node a = KInt 48000 /\
  Routing.destination (Preferences.current_node a) = None /\
  Preferences.confdict a = Scenario.conf0 /\
  Routing.read (Routing.Nested "hw_params" "rate") (Preferences.confdict a)
    = Some (JKey (KInt 44100)) /\
  outcome (Preferences.select_index [] (KStr "rate") (ADict Scenario.schema))
          Scenario.app0 = Raise (KeyError (KStr "rate")) /\
  (forall answer : bool,
      outcome (Preference.set_value answer) Scenario.capp0
        = Raise (AttributeError "current_choice") /\
      Preference.confdict (state_after (Preference.set_value answer) Scenario.capp0)
        = Scenario.conf0).
Proof.
  repeat split; try (vm_compute; reflexivity); destruct answer; vm_compute; reflexivity.
Qed.

(** ** Routing in preference.py *)

(** Whatever the choice, [_pref_conf] never returns [False]: the branch of
    the two format names is taken by every choice other than [rate]. *)
Lemma pref_conf_never_false (answer : bool) (choice key : KeyType)
      (a : Preference.ConfigurationApp) :
  outcome (Preference._pref_conf answer choice key) a <> Ok (Some false).
Proof.
  unfold outcome, Preference._pref_conf.
  destruct (eq_lit choice "rate").
  - unfold bind, ret.
    destruct (Preference.conf_set2 _ _ _ a) as [[ [] | e ] a1]; [ | discriminate ].
    destruct (Preference.guess answer a1) as [[ [] | e ] a2]; discriminate.
  - replace (Preference.or_lit (eq_lit choice "alsa") "sounddevice") with true
      by (unfold Preference.or_lit; now rewrite orb_true_r).
    unfold bind, ret.
    destruct (Preference.conf_set2 _ _ _ a) as [[ [] | e ] a1]; [ | discriminate ].
    destruct (Preference.guess answer a1) as [[ [] | e ] a2]; discriminate.
Qed.

(** A choice other than [rate] is written to [hw_params.fomatname]. *)
Lemma pref_conf_writes_format (answer : bool) (choice key : KeyType)
      (a : Preference.ConfigurationApp) (d : gmap string json) :
  eq_lit choice "rate" = false ->
  Preference.confdict a !! "hw_params" = Some (JDict d) ->
  outcome (Preference._pref_conf answer choice key) a = Ok None /\
  Preference.confdict (state_after (Preference._pref_conf answer choice key) a)
  = <["hw_params" := JDict (<["fomatname" := JKey key]> d)]> (Preference.confdict a).
Proof.
  intros Hrate Hd. unfold outcome, state_after, Preference._pref_conf.
  rewrite Hrate.
  replace (Preference.or_lit (eq_lit choice "alsa") "sounddevice") with true
    by (unfold Preference.or_lit; now rewrite orb_true_r).
  unfold Preference.conf_set2, setitem2, bind, gets, modify, ret. rewrite Hd.
  unfold Preference.guess, bind, gets, modify. destruct answer; split; reflexivity.
Qed.

(** [current_choice] is never assigned: without a [False] from [_pref_conf]
    the branch of [select_item] that assigns it is not taken. *)
Lemma pref_conf_keeps_choice (answer : bool) (choice key : KeyType) :
  keeps Preference.current_choice (Preference._pref_conf answer choice key).
Proof.
  unfold Preference._pref_conf, Preference.conf_set2, Preference.conf_set1,
    Preference.guess, setitem1.
  keeps_auto.
Qed.

Lemma select_item_keeps_choice (answer : bool) (key : KeyType)
      (attributes_ : option attr) (a : Preference.ConfigurationApp) :
  Preference.current_choice (state_after (Preference.select_item answer key attributes_) a)
  = Preference.current_choice a.
Proof.
  unfold state_after, Preference.select_item.
  unfold bind at 1. unfold gets at 1.
  destruct (Preference.current_choice a) as [choice | ] eqn:Hc; [ | exact Hc ].
  rewrite run_bind.
  pose proof (pref_conf_keeps_choice answer choice key a) as Hk.
  pose proof (pref_conf_never_false answer choice key a) as Hf.
  unfold state_after in Hk. unfold outcome in Hf.
  destruct (Preference._pref_conf answer choice key a) as [[r | e] a1]; simpl in *.
  - destruct r as [[ | ] | ]; [ | congruence | ]; simpl; congruence.
  - congruence.
Qed.

(** C2. A key without an entry in the table is not reported. In
    preference.py [_pref_conf] does not return [False] for it, and writes its
    value to [hw_params.fomatname]; in preferences.py
    [_setval_if_key_is_node] writes nothing for it and ends the round as it
    does after a write. *)
Theorem unroutable_key_not_reported :
  (forall answer : bool,
      let a := Scenario.capp1 (KStr "bogus") in
      let a' := state_after (Preference._pref_conf answer (KStr "bogus") (KInt 7)) a in
      outcome (Preference._pref_conf answer (KStr "bogus") (KInt 7)) a = Ok None /\
      Routing.read (Routing.Nested "hw_params" "fomatname") (Preference.confdict a')
        = Some (JKey (KInt 7))) /\
  Routing.destination (KStr "bogus") = None /\
  Preferences._setval_if_key_is_node (KStr "bogus") (KInt 7) Scenario.app1
    = (Ok tt, Routing.post_process Scenario.app1) /\
  Preferences.confdict (Routing.post_process Scenario.app1)
    = Preferences.confdict Scenario.app1.
Proof.
  split; [ intros [ | ]; vm_compute; split; reflexivity | ].
  split; [ reflexivity | ].
  split; [ | reflexivity ].
  rewrite setval_table. reflexivity.
Qed.

(** In preferences.py no key without a place is reported, and none is
    written. *)
Lemma setval_unroutable (key_prev selected : KeyType) (a : Preferences.PreferenceApp) :
  Routing.destination key_prev = None ->
  Preferences._setval_if_key_is_node key_prev selected a
  = (Ok tt, Routing.post_process a).
Proof. intros H. rewrite setval_table, H. reflexivity. Qed.

(** ** The device positions *)

(** preferences.py routes the three positions, and only them, to [devices]. *)
Lemma setval_devices_rule (k : string) (v : KeyType) (a : Preferences.PreferenceApp)
      (d : gmap string json) :
  In k device_positions ->
  Preferences.confdict a !! "devices" = Some (JDict d) ->
  Preferences._setval_if_key_is_node (KStr k) v a
  = (Ok tt,
     Routing.post_process
       (Preferences.set_confdict
          (<["devices" := JDict (<[k := JKey v]> d)]> (Preferences.confdict a)) a)).
Proof.
  intros Hk Hd. rewrite setval_table.
  assert (Hdest : Routing.destination (KStr k) = Some (Routing.Nested "devices" k)).
  { simpl in Hk. destruct Hk as [<- | [<- | [<- | []]]]; reflexivity. }
  rewrite Hdest. simpl. unfold setitem2. rewrite Hd. reflexivity.
Qed.

Lemma destination_devices_only (key : KeyType) (k : string) :
  Routing.destination key = Some (Routing.Nested "devices" k) ->
  key = KStr k /\ In k device_positions.
Proof.
  intros H. apply destination_cases in H.
  decompose [or] H; clear H;
    match goal with
    | H : _ /\ _ |- _ => destruct H as [-> E]
    end;
    first [ discriminate E
          | injection E as ->; split; [ reflexivity | ];
            unfold device_positions; simpl; solve [ auto 6 ] ].
Qed.

(** ** The places the routing leaves alone *)

Lemma write_frame (d p : Routing.Dest) (v : json) (c c' : gmap string json) :
  Routing.write d v c = Ok c' -> Routing.apart d p ->
  Routing.read p c' = Routing.read p c.
Proof.
  destruct d as [k | sect k], p as [k' | sect' k']; simpl; unfold setitem1.
  - intros [= <-] Hne. apply lookup_insert_ne. exact Hne.
  - intros [= <-] Hne. rewrite lookup_insert_ne by exact Hne. reflexivity.
  - intros H Hne. apply setitem2_ok in H as [sub [_ ->]].
    apply lookup_insert_ne. exact Hne.
  - intros H Hne. apply setitem2_ok in H as [sub [Hsub ->]].
    destruct (decide (sect = sect')) as [<- | Hs].
    + rewrite lookup_insert_eq, Hsub.
      destruct Hne as [Hne | Hne]; [ congruence | ].
      apply lookup_insert_ne. exact Hne.
    + rewrite lookup_insert_ne by exact Hs. reflexivity.
Qed.

Lemma setval_frame (key_prev selected : KeyType) (a : Preferences.PreferenceApp)
      (p : Routing.Dest) :
  (forall d, Routing.destination key_prev = Some d -> Routing.apart d p) ->
  Routing.read p
    (Preferences.confdict
       (state_after (Preferences._setval_if_key_is_node key_prev selected) a))
  = Routing.read p (Preferences.confdict a).
Proof.
  intros Hp. unfold state_after. rewrite setval_table.
  destruct (Routing.destination key_prev) as [d | ] eqn:Hd; [ | reflexivity ].
  destruct (Routing.write d (JKey selected) (Preferences.confdict a)) as [c' | e] eqn:Hw;
    [ | reflexivity ].
  simpl. eapply write_frame; eauto.
Qed.

(** C5. In preferences.py the three device positions share one rule, which
    takes the key as its parameter: for each of [main], [monitor] and
    [input] and every value, [_setval_if_key_is_node] writes the value to
    [devices] under that very key, and runs the post process. A key other
    than these three leaves [devices] as it was, whatever else it writes,
    and the table sends a key to [devices] exactly when it is one of the
    three, to the place of its own name. *)
Theorem device_positions_share_one_rule (v : KeyType)
        (a : Preferences.PreferenceApp) (d : gmap string json) :
  Preferences.confdict a !! "devices" = Some (JDict d) ->
  (forall k, In k device_positions ->
     Preferences._setval_if_key_is_node (KStr k) v a
     = (Ok tt,
        Routing.post_process
          (Preferences.set_confdict
             (<["devices" := JDict (<[k := JKey v]> d)]> (Preferences.confdict a)) a)) /\
     Routing.read (Routing.Nested "devices" k)
       (Preferences.confdict
          (state_after (Preferences._setval_if_key_is_node (KStr k) v) a))
     = Some (JKey v)) /\
  (forall key_prev,
     (forall k, In k device_positions -> key_prev <> KStr k) ->
     Preferences.confdict
       (state_after (Preferences._setval_if_key_is_node key_prev v) a) !! "devices"
     = Some (JDict d)) /\
  (forall key_prev k,
     Routing.destination key_prev = Some (Routing.Nested "devices" k) <->
     key_prev = KStr k /\ In k device_positions).
Proof.
  intros Hd. split; [ | split ].
  - intros k Hk. pose proof (setval_devices_rule k v a d Hk Hd) as Hrun.
    split; [ exact Hrun | ].
    unfold state_after. rewrite Hrun. cbn. rewrite lookup_insert_eq.
    apply lookup_insert_eq.
  - intros key_prev Hother. rewrite <- Hd.
    apply (setval_frame key_prev v a (Routing.Top "devices")).
    intros dest Hdest. apply destination_cases in Hdest.
    decompose [or and] Hdest; subst; simpl;
      first [ discriminate
            | exfalso;
              first [ solve [ apply (Hother "main"); [ simpl; tauto | reflexivity ] ]
                    | solve [ apply (Hother "monitor"); [ simpl; tauto | reflexivity ] ]
                    | solve [ apply (Hother "input"); [ simpl; tauto | reflexivity ] ] ] ].
  - intros key_prev k. split; [ apply destination_devices_only | ].
    intros [-> Hk]. simpl in Hk.
    destruct Hk as [<- | [<- | [<- | []]]]; reflexivity.
Qed.

Lemma device_positions_share_one_rule_witness :
  Routing.read (Routing.Nested "devices" "monitor")
    (Preferences.confdict
       (state_after (Preferences._setval_if_key_is_node (KStr "monitor") (KStr "hw:1"))
                    Scenario.app1))
  = Some (JKey (KStr "hw:1")) /\
  Preferences.confdict
    (state_after (Preferences._setval_if_key_is_node (KStr "rate") (KInt 48000))
                 Scenario.app1) !! "devices"
  = Some (JDict ∅).
Proof.
  destruct (device_positions_share_one_rule (KStr "hw:1") Scenario.app1 ∅ eq_refl)
    as [Hrule _].
  destruct (device_positions_share_one_rule (KInt 48000) Scenario.app1 ∅ eq_refl)
    as [_ [Hother _]].
  split.
  - apply (Hrule "monitor"). right. left. reflexivity.
  - apply Hother. intros k Hk [= <-]. simpl in Hk.
    decompose [or] Hk; first [ discriminate | contradiction ].
Defined.

(** At the keyboard: [devices] and [main] are chosen, then the second of the
    two sound devices reported, and the rule writes it to [devices.main]. *)
Lemma device_position_written_at_the_keyboard :
  let header := [("devices", ADict [("main", AOther); ("monitor", AOther)])] in
  let a := Navigator.start Scenario.sections header in
  let keys := [Navigator.Enter; Navigator.Enter; Navigator.Down; Navigator.Enter] in
  let a' := state_after (Navigator.run ["hw:0"; "hw:1"] keys) a in
  outcome (Navigator.run ["hw:0"; "hw:1"] keys) a
    = Ok [KStr "devices"; KStr "main"; KStr "hw:1"] /\
  Routing.read (Routing.Nested "devices" "main") (Preferences.confdict a')
    = Some (JKey (KStr "hw:1")) /\
  Routing.read (Routing.Nested "devices" "monitor") (Preferences.confdict a') = None /\
  Preferences.exited a' = true.
Proof. vm_compute. repeat split. Qed.

(** ** dump_defaults *)

Section DumpFacts.

Variable dumps : option nat -> gmap string json -> string.

(** With the description in [config], [dump_defaults(description=False)]
    deletes that key and no other, and returns the remaining dict, which is
    [config] itself, with its text. *)
Lemma dump_defaults_removes_description (puts : bool) (m : Config.Module_) (v : json) :
  Config.config m !! "__description__" = Some v ->
  let rest := delete "__description__" (Config.config m) in
  outcome (Config.dump_defaults dumps puts false) m = Ok (dumps None rest, rest) /\
  Config.config (state_after (Config.dump_defaults dumps puts false) m) = rest /\
  rest !! "__description__" = None /\
  (forall k, k <> "__description__" -> rest !! k = Config.config m !! k).
Proof.
  intros Hv rest.
  unfold outcome, state_after, Config.dump_defaults, Config.delitem, when,
    bind, gets, modify, ret. simpl. rewrite Hv.
  destruct puts; simpl; repeat split.
  - apply lookup_delete_eq.
  - intros k Hk. apply lookup_delete_ne. congruence.
  - apply lookup_delete_eq.
  - intros k Hk. apply lookup_delete_ne. congruence.
Qed.

(** [dump_defaults(description=True)] leaves [config] as it is. *)
Lemma dump_defaults_with_description (puts : bool) (m : Config.Module_) :
  outcome (Config.dump_defaults dumps puts true) m
    = Ok (dumps None (Config.config m), Config.config m) /\
  Config.config (state_after (Config.dump_defaults dumps puts true) m) = Config.config m.
Proof. destruct puts; split; reflexivity. Qed.

(** Without the description in [config] the call raises and returns
    nothing. *)
Lemma dump_defaults_without_description (puts : bool) (m : Config.Module_) :
  Config.config m !! "__description__" = None ->
  Config.dump_defaults dumps puts false m
  = (Raise (KeyError (KStr "__description__")), m).
Proof.
  intros Hv. unfold Config.dump_defaults, Config.delitem, when, bind, gets. simpl.
  rewrite Hv. reflexivity.
Qed.

(** C10. On a [config] that has its description,
    [dump_defaults(description=False)] removes the key [__description__]
    from [config] and no other, leaves the value of every other key as it
    was, and returns [config] itself, now without the key, with its text.
    With [description=True] the call never changes [config]. *)
Theorem dump_defaults_removes_exactly_the_description (puts : bool)
        (m : Config.Module_) (v : json) :
  Config.config m !! "__description__" = Some v ->
  let m' := state_after (Config.dump_defaults dumps puts false) m in
  outcome (Config.dump_defaults dumps puts false) m
    = Ok (dumps None (Config.config m'), Config.config m') /\
  Config.config m' = delete "__description__" (Config.config m) /\
  Config.config m' !! "__description__" = None /\
  (forall k, k <> "__description__" -> Config.config m' !! k = Config.config m !! k) /\
  (forall m0 : Config.Module_,
      outcome (Config.dump_defaults dumps puts true) m0
        = Ok (dumps None (Config.config m0), Config.config m0) /\
      Config.config (state_after (Config.dump_defaults dumps puts true) m0)
        = Config.config m0).
Proof.
  intros Hv m'.
  destruct (dump_defaults_removes_description puts m v Hv) as [Hout [Hst [Hnone Hrest]]].
  fold m' in Hst. rewrite Hst.
  split; [ exact Hout | ]. split; [ reflexivity | ]. split; [ exact Hnone | ].
  split; [ exact Hrest | ]. intros m0. apply dump_defaults_with_description.
Qed.

End DumpFacts.

Lemma dump_defaults_removes_exactly_the_description_witness :
  let dumps := fun (_ : option nat) (c : gmap string json) => pretty (size c) in
  let m' := state_after (Config.dump_defaults dumps false false)
                        (Scenario.module_of Scenario.loaded) in
  Config.config m' = Scenario.params /\
  Config.config m' !! "filter_algo" = Some (JKey (KStr "FilterLMS")).
Proof.
  intros dumps m'.
  destruct (dump_defaults_removes_exactly_the_description dumps false
              (Scenario.module_of Scenario.loaded) (JKey (KStr "defaults")) eq_refl)
    as [_ [Hcfg [_ [Hrest _]]]].
  fold m' in Hcfg, Hrest. split.
  - rewrite Hcfg. vm_compute. reflexivity.
  - rewrite Hrest by discriminate. reflexivity.
Defined.

(** ** More on the cursor *)

Lemma mod_down_up (i n : Z) : 0 <= i < n -> ((i + 1) mod n - 1) mod n = i.
Proof.
  intros H. destruct (Z.eq_dec (i + 1) n) as [E | E].
  - rewrite E, Z.mod_same by lia. simpl.
    rewrite <- (Z.mod_add (0 - 1) 1 n) by lia.
    rewrite Z.mod_small; lia.
  - rewrite (Z.mod_small (i + 1)) by lia.
    rewrite Z.mod_small; lia.
Qed.

Lemma mod_up_down (i n : Z) : 0 <= i < n -> ((i - 1) mod n + 1) mod n = i.
Proof.
  intros H. destruct (Z.eq_dec i 0) as [E | E].
  - subst i. simpl. rewrite <- (Z.mod_add (0 - 1) 1 n) by lia.
    rewrite (Z.mod_small (0 - 1 + 1 * n)) by lia.
    replace (0 - 1 + 1 * n + 1) with n by lia.
    apply Z.mod_same. lia.
  - rewrite (Z.mod_small (i - 1)) by lia.
    rewrite Z.mod_small; lia.
Qed.

Lemma preferences_same_cursor (a : Preferences.PreferenceApp) (i : Z) :
  i = Preferences.selected_index (Preferences.control a) ->
  Preferences.set_control
    (Preferences.set_selected_index i (Preferences.control a)) a = a.
Proof. intros ->. destruct a as [? ? ? [? ? ?] ? ? ? ? ? ? ?]. reflexivity. Qed.

Lemma preferences_down_run (a : Preferences.PreferenceApp) :
  0 < Preferences.choice_count (Preferences.control a) ->
  Preferences.move_cursor_down a =
    (Ok tt,
     Preferences.set_control
       (Preferences.set_selected_index
          ((Preferences.selected_index (Preferences.control a) + 1)
             mod Preferences.choice_count (Preferences.control a))
          (Preferences.control a)) a).
Proof.
  intros Hn. unfold Preferences.move_cursor_down, bind, gets, modify.
  destruct (Z.eqb_spec (Preferences.choice_count (Preferences.control a)) 0);
    [ lia | reflexivity ].
Qed.

Lemma preferences_up_run (a : Preferences.PreferenceApp) :
  0 < Preferences.choice_count (Preferences.control a) ->
  Preferences.move_cursor_up a =
    (Ok tt,
     Preferences.set_control
       (Preferences.set_selected_index
          ((Preferences.selected_index (Preferences.control a) - 1)
             mod Preferences.choice_count (Preferences.control a))
          (Preferences.control a)) a).
Proof.
  intros Hn. unfold Preferences.move_cursor_up, bind, gets, modify.
  destruct (Z.eqb_spec (Preferences.choice_count (Preferences.control a)) 0);
    [ lia | reflexivity ].
Qed.

(** Pressing down [k] times moves the cursor [k] entries on, modulo the
    length of the list, and changes nothing else. *)
Lemma press_down_run (k : nat) :
  forall a : Preferences.PreferenceApp,
    let c := Preferences.control a in
    0 <= Preferences.selected_index c < Preferences.choice_count c ->
    Navigator.press_down k a =
      (Ok tt,
       Preferences.set_control
         (Preferences.set_selected_index
            ((Preferences.selected_index c + Z.of_nat k)
               mod Preferences.choice_count c) c) a).
Proof.
  induction k as [ | k IH ]; intros a c Hi.
  - simpl. unfold ret. f_equal. symmetry. apply preferences_same_cursor.
    rewrite Z.add_0_r. apply Z.mod_small. exact Hi.
  - simpl Navigator.press_down.
    assert (Hn : 0 < Preferences.choice_count c) by lia.
    rewrite (run_bind_ok _ _ _ _ _ (preferences_down_run a Hn)).
    rewrite IH.
    + cbn [Preferences.control Preferences.set_control Preferences.selected_index
           Preferences.set_selected_index Preferences.choice_count
           Preferences.ic_nodes].
      fold c. f_equal. unfold Preferences.set_control, Preferences.set_selected_index.
      cbn. f_equal. f_equal.
      change (Z.of_nat (length (Preferences.ic_nodes c)))
        with (Preferences.choice_count c).
      rewrite Zplus_mod_idemp_l. f_equal. lia.
    + cbn. apply Z.mod_pos_bound. exact Hn.
Qed.

(** ** The wizard of preferences.py does not raise *)

Lemma assoc_keys (items : list (string * attr)) (key : KeyType) :
  In key (keys items) ->
  exists s child, key = KStr s /\ assoc s items = Some child.
Proof.
  induction items as [ | [s' a'] rest IH ]; simpl; [ intros [] | ].
  intros [<- | Hin].
  - exists s', a'. rewrite String.eqb_refl. split; reflexivity.
  - destruct (IH Hin) as [s [child [-> Hs]]].
    exists s. destruct (String.eqb s' s); eauto.
Qed.

Lemma populated_assoc (items : list (string * attr)) (s : string) (child : attr) :
  Wellformed.populated (ADict items) = true ->
  assoc s items = Some child ->
  Wellformed.populated child = true.
Proof.
  simpl. intros H. apply andb_true_iff in H as [_ H]. revert H.
  induction items as [ | [s' a'] rest IH ]; simpl; [ discriminate | ].
  intros H. apply andb_true_iff in H as [Ha Hrest].
  destruct (String.eqb s' s).
  - intros [= <-]. exact Ha.
  - apply IH. exact Hrest.
Qed.

Lemma populated_keys (items : list (string * attr)) :
  Wellformed.populated (ADict items) = true -> keys items <> [].
Proof. destruct items; simpl; [ discriminate | intros _; discriminate ]. Qed.

Lemma py_index_nth {A} (l : list A) (i : Z) :
  0 <= i < Z.of_nat (length l) -> py_index l i = nth_error l (Z.to_nat i).
Proof.
  intros [Hlo Hhi]. unfold py_index.
  destruct (Z.leb_spec 0 i); [ | lia ].
  destruct (Z.ltb_spec i (Z.of_nat (length l))); [ reflexivity | lia ].
Qed.

Lemma write_sections (d : Routing.Dest) (k : KeyType) (v : json)
      (c : gmap string json) :
  Routing.destination k = Some d ->
  Wellformed.has_sections c ->
  exists c', Routing.write d v c = Ok c' /\ Wellformed.has_sections c'.
Proof.
  intros Hd Hc. apply destination_cases in Hd.
  assert (Hnested : forall sect k',
             In sect ["hw_params"; "filter_params"; "devices"] ->
             exists c', setitem2 sect k' v c = Ok c' /\ Wellformed.has_sections c').
  { intros sect k' Hin. destruct (Hc sect Hin) as [sub Hsub].
    eexists. split; [ apply setitem2_ok; eauto | ].
    intros sect' Hin'. destruct (decide (sect = sect')) as [<- | Hne].
    - rewrite lookup_insert_eq. eauto.
    - rewrite lookup_insert_ne by exact Hne. apply Hc. exact Hin'. }
  assert (Htop : forall k', ~ In k' ["hw_params"; "filter_params"; "devices"] ->
             exists c', setitem1 k' v c = Ok c' /\ Wellformed.has_sections c').
  { intros k' Hk. eexists. split; [ reflexivity | ].
    intros sect Hin. rewrite lookup_insert_ne; [ apply Hc; exact Hin | ].
    intros ->. contradiction. }
  decompose [or and] Hd; subst; cbn [Routing.write].
  all: first [ apply Hnested;
               first [ left; reflexivity | right; left; reflexivity
                     | right; right; left; reflexivity ]
             | apply Htop; intros H; simpl in H; decompose [or] H;
               first [ discriminate | contradiction ] ].
Qed.

Lemma route_sections (k : KeyType) (v : json) (c : gmap string json) :
  Wellformed.has_sections c ->
  exists c', Routing.route k v c = Ok c' /\ Wellformed.has_sections c'.
Proof.
  intros Hc. unfold Routing.route.
  destruct (Routing.destination k) as [d | ] eqn:Hd; [ | eauto ].
  eapply write_sections; eauto.
Qed.

Lemma wf_cursor_moved (a : Preferences.PreferenceApp) (j : Z) (b : bool) :
  Wellformed.wf a ->
  0 <= j < Z.of_nat (length (Preferences.nodes a)) ->
  Wellformed.wf
    (Preferences.set_control
       (Preferences.set_answered b
          (Preferences.set_selected_index j (Preferences.control a))) a).
Proof.
  intros (Hn & _ & Hattr & Hconf) Hj.
  split; [ exact Hn | ]. split; [ exact Hj | ]. split; [ exact Hattr | exact Hconf ].
Qed.

(** Once a truthy label of the list is selected, [select_index] succeeds and
    leaves a state the keys can be pressed in, with no answer pending. *)
Lemma select_index_wf (snddevs : list string) (sel : KeyType)
      (a : Preferences.PreferenceApp) :
  snddevs <> [] ->
  Wellformed.wf a ->
  In sel (Preferences.nodes a) ->
  truthy sel = true ->
  exists a',
    Preferences.select_index snddevs sel (Preferences.attributes a) a = (Ok tt, a') /\
    Wellformed.wf a' /\
    Preferences.answered (Preferences.control a') = false.
Proof.
  intros Hdevs (Hn & Hi & Hattr & Hconf) Hin Htruthy.
  unfold Preferences.select_index, Preferences._work_before_node.
  destruct (Preferences.attributes a) as [items | l | ] eqn:Ha; [ | | contradiction ].
  - destruct Hattr as [Hpop Hkeys].
    destruct (in_lits sel device_positions) eqn:Hdev.
    + eexists. split; [ reflexivity | ].
      split; [ | reflexivity ].
      split; [ reflexivity | ]. split; [ | split; [ exact I | exact Hconf ] ].
      cbn. destruct snddevs; [ contradiction | simpl; lia ].
    + destruct (Hkeys sel Hin) as [s [child [-> Hs]]].
      unfold Preferences.set_child_control, getitem.
      rewrite Hs.
      destruct child as [ch | l | ].
      * eexists. split; [ reflexivity | ].
        split; [ | reflexivity ].
        pose proof (populated_assoc _ _ _ Hpop Hs) as Hch.
        split; [ reflexivity | ]. split; [ | split; [ | exact Hconf ] ].
        -- cbn. pose proof (populated_keys ch Hch) as Hne.
           destruct (keys ch); [ contradiction | simpl; lia ].
        -- cbn. split; [ exact Hch | ]. intros key. apply assoc_keys.
      * eexists. split; [ reflexivity | ].
        split; [ | reflexivity ].
        pose proof (populated_assoc _ _ _ Hpop Hs) as Hl.
        split; [ reflexivity | ]. split; [ | split; [ exact I | exact Hconf ] ].
        cbn. destruct l; [ discriminate | simpl; lia ].
      * eexists. split; [ reflexivity | ].
        split; [ | reflexivity ].
        split; [ reflexivity | ]. split; [ | split; [ | exact Hconf ] ].
        -- cbn. destruct (Preferences.nodes a); [ simpl in Hin; contradiction | simpl; lia ].
        -- cbn. rewrite Ha. split; [ exact Hpop | exact Hkeys ].
  - unfold bind at 1. unfold bind at 1. unfold gets at 1.
    set (cur := in_lits (KStr (str (Preferences.current_node a))) device_positions).
    set (a1 := if cur then a else Preferences.set_current_node sel a).
    assert (Hrun : (if cur then ret tt else modify (Preferences.set_current_node sel)) a
                   = (Ok tt, a1)).
    { unfold a1. destruct cur; reflexivity. }
    unfold bind at 1. rewrite Hrun.
    unfold bind at 1. unfold modify at 1. unfold ret at 1.
    rewrite Htruthy.
    unfold bind at 1. unfold gets at 1.
    rewrite setval_route.
    assert (Hc1 : Preferences.confdict (Preferences.set_attributes (AList []) a1)
                  = Preferences.confdict a).
    { unfold a1. destruct cur; reflexivity. }
    rewrite Hc1.
    destruct (route_sections
                (Preferences.current_node (Preferences.set_attributes (AList []) a1))
                (JKey sel) _ Hconf) as [c' [Hroute Hc']].
    rewrite Hroute.
    eexists. split; [ reflexivity | ].
    split; [ | reflexivity ].
    split; [ | split; [ | split; [ exact I | exact Hc' ] ] ].
    + unfold a1. destruct cur; exact Hn.
    + unfold a1. destruct cur; exact Hi.
Qed.

(** With a truthy label selected, the prompt line appends it to the
    breadcrumb and hands it to [select_index]. *)
Lemma get_prompt_tokens_selected (snddevs : list string)
      (a : Preferences.PreferenceApp) (sel : KeyType) :
  Preferences.answered (Preferences.control a) = true ->
  Preferences.get_selection a = (Ok sel, a) ->
  truthy sel = true ->
  exists toks,
    Preferences.get_prompt_tokens snddevs a =
      match Preferences.select_index snddevs sel (Preferences.attributes a)
              (Preferences.set_breadcrumb
                 (Navigator.append_label (Preferences.breadcrumb a) sel) a) with
      | (Ok _, s) => (Ok toks, s)
      | (Raise e, s) => (Raise e, s)
      end.
Proof.
  intros Ha Hsel Htruthy.
  unfold Preferences.get_prompt_tokens, Navigator.append_label.
  unfold bind at 1. unfold gets at 1. rewrite Ha.
  unfold bind at 1. unfold bind at 1. rewrite Hsel. unfold ret at 1.
  rewrite Htruthy.
  unfold bind, gets, modify, ret.
  destruct (String.eqb (Preferences.breadcrumb a) "") eqn:Eb;
    cbn [negb]; cbv beta iota zeta; eexists; reflexivity.
Qed.

(** Rendering the prompt line of an idle state changes nothing. *)
Lemma render_idle (snddevs : list string) (a : Preferences.PreferenceApp) :
  Wellformed.idle a ->
  exists toks, Preferences.get_prompt_tokens snddevs a = (Ok toks, a).
Proof.
  intros Hidle. unfold Preferences.get_prompt_tokens.
  unfold bind at 1. unfold gets at 1.
  destruct (Preferences.answered (Preferences.control a)) eqn:Ha.
  - destruct Hidle as [Hf | [sel [Hsel Hfalse]]]; [ congruence | ].
    apply get_selection_run in Hsel.
    unfold bind at 1. unfold bind at 1. rewrite Hsel. unfold ret at 1.
    rewrite Hfalse. unfold bind, gets, ret. eexists. reflexivity.
  - unfold bind, gets, ret. eexists. reflexivity.
Qed.

(** In a state the keys can be pressed in, the handler of every key
    succeeds and leaves such a state. *)
Lemma handler_wf (k : Navigator.Key) (a : Preferences.PreferenceApp) :
  Wellformed.wf a ->
  exists a', Navigator.handler k a = (Ok tt, a') /\ Wellformed.wf a'.
Proof.
  intros Hwf. pose proof Hwf as (Hn & Hi & _).
  assert (Hcount : Preferences.choice_count (Preferences.control a)
                   = Z.of_nat (length (Preferences.nodes a))).
  { unfold Preferences.choice_count. now rewrite Hn. }
  assert (Hpos : 0 < Preferences.choice_count (Preferences.control a)) by lia.
  destruct k; simpl Navigator.handler.
  - eexists. split; [ apply preferences_down_run; exact Hpos | ].
    apply (wf_cursor_moved a _ (Preferences.answered (Preferences.control a)) Hwf).
    rewrite Hcount. apply Z.mod_pos_bound. lia.
  - eexists. split; [ apply preferences_up_run; exact Hpos | ].
    apply (wf_cursor_moved a _ (Preferences.answered (Preferences.control a)) Hwf).
    rewrite Hcount. apply Z.mod_pos_bound. lia.
  - eexists. split; [ apply set_value_run | ].
    apply (wf_cursor_moved a _ true Hwf Hi).
  - eexists. split; [ reflexivity | exact Hwf ].
Qed.

(** A redraw in such a state succeeds, leaves such a state, and leaves
    nothing to be rendered. *)
Lemma redraw_wf (snddevs : list string) (a : Preferences.PreferenceApp) :
  snddevs <> [] ->
  Wellformed.wf a ->
  exists r a',
    Navigator.redraw snddevs a = (Ok r, a') /\
    Wellformed.wf a' /\ Wellformed.idle a'.
Proof.
  intros Hdevs Hwf. pose proof Hwf as (Hn & Hi & _).
  unfold Navigator.redraw. rewrite run_bind, pending_run.
  destruct (Preferences.answered (Preferences.control a)) eqn:Ha.
  - rewrite Hn, py_index_nth by exact Hi.
    destruct (nth_error (Preferences.nodes a)
                (Z.to_nat (Preferences.selected_index (Preferences.control a))))
      as [sel | ] eqn:E.
    2:{ apply nth_error_None in E. lia. }
    assert (Hin : In sel (Preferences.nodes a)) by (eapply nth_error_In; eauto).
    assert (Hsel : Preferences.get_selection a = (Ok sel, a)).
    { unfold Preferences.get_selection, bind, gets. rewrite Hn.
      rewrite py_index_nth by exact Hi. rewrite E. reflexivity. }
    destruct (truthy sel) eqn:Htruthy.
    + destruct (get_prompt_tokens_selected snddevs a sel Ha Hsel Htruthy)
        as [toks Htoks].
      destruct (select_index_wf snddevs sel
                  (Preferences.set_breadcrumb
                     (Navigator.append_label (Preferences.breadcrumb a) sel) a)
                  Hdevs Hwf Hin Htruthy) as [a' [Hrun [Hwf' Hans]]].
      change (Preferences.attributes
                (Preferences.set_breadcrumb
                   (Navigator.append_label (Preferences.breadcrumb a) sel) a))
        with (Preferences.attributes a) in Hrun.
      rewrite Hrun in Htoks.
      rewrite (run_bind_ok _ _ _ _ _ Htoks).
      exists (Some sel), a'. split; [ reflexivity | ]. split; [ exact Hwf' | ].
      left. exact Hans.
    + assert (Hidle : Wellformed.idle a).
      { right. exists sel. unfold outcome. rewrite Hsel.
        split; [ reflexivity | exact Htruthy ]. }
      destruct (render_idle snddevs a Hidle) as [toks Htoks].
      rewrite (run_bind_ok _ _ _ _ _ Htoks).
      exists None, a. split; [ reflexivity | ]. split; [ exact Hwf | exact Hidle ].
  - assert (Hidle : Wellformed.idle a) by (left; exact Ha).
    destruct (render_idle snddevs a Hidle) as [toks Htoks].
    rewrite (run_bind_ok _ _ _ _ _ Htoks).
    exists None, a. split; [ reflexivity | ]. split; [ exact Hwf | exact Hidle ].
Qed.

(** Whenever [select_index] returns after a truthy label, no answer is
    pending any more: the control is a new one, or the post process has
    taken the answer back. *)
Lemma select_index_settles (snddevs : list string) (sel : KeyType)
      (a a' : Preferences.PreferenceApp) :
  Preferences.attributes a <> AOther ->
  truthy sel = true ->
  Preferences.select_index snddevs sel (Preferences.attributes a) a = (Ok tt, a') ->
  Preferences.answered (Preferences.control a') = false /\
  Preferences.attributes a' <> AOther.
Proof.
  intros Hattr Htruthy.
  unfold Preferences.select_index, Preferences._work_before_node.
  destruct (Preferences.attributes a) as [items | l | ] eqn:Ha; [ | | contradiction ].
  - destruct (in_lits sel device_positions).
    + intros [= <-]. split; [ reflexivity | discriminate ].
    + unfold Preferences.set_child_control, getitem.
      destruct sel as [s | z | r]; try discriminate.
      destruct (assoc s items) as [[ch | l | ] | ]; try discriminate.
      * intros [= <-]. split; [ reflexivity | discriminate ].
      * intros [= <-]. split; [ reflexivity | discriminate ].
      * intros [= <-]. split; [ reflexivity | ]. cbn. rewrite Ha. discriminate.
  - unfold bind at 1. unfold bind at 1. unfold gets at 1.
    set (cur := in_lits (KStr (str (Preferences.current_node a))) device_positions).
    set (a1 := if cur then a else Preferences.set_current_node sel a).
    assert (Hrun : (if cur then ret tt else modify (Preferences.set_current_node sel)) a
                   = (Ok tt, a1)).
    { unfold a1. destruct cur; reflexivity. }
    unfold bind at 1. rewrite Hrun.
    unfold bind at 1. unfold modify at 1. unfold ret at 1.
    rewrite Htruthy.
    unfold bind at 1. unfold gets at 1.
    rewrite setval_route.
    destruct (Routing.route _ _ _); [ | discriminate ].
    intros [= <-]. split; [ reflexivity | discriminate ].
Qed.

(** A redraw that returns leaves nothing to be rendered, as long as the
    attributes are a dict or a list, which they are from [__init__] on: a
    further redraw of the same state changes nothing, so that one redraw
    after a key stands for any number of them. *)
Lemma redraw_settles (snddevs : list string) (a a' : Preferences.PreferenceApp)
      (r : option KeyType) :
  Preferences.attributes a <> AOther ->
  Navigator.redraw snddevs a = (Ok r, a') ->
  Wellformed.idle a' /\ Preferences.attributes a' <> AOther /\
  Navigator.redraw snddevs a' = (Ok None, a').
Proof.
  intros Hattr.
  assert (Hagain : forall s : Preferences.PreferenceApp,
             Wellformed.idle s -> Navigator.redraw snddevs s = (Ok None, s)).
  { intros s Hidle. unfold Navigator.redraw. rewrite run_bind, pending_run.
    destruct (render_idle snddevs s Hidle) as [toks Htoks].
    destruct Hidle as [Hf | [sel [Hsel Hfalse]]].
    - rewrite Hf. rewrite (run_bind_ok _ _ _ _ _ Htoks). reflexivity.
    - destruct (Preferences.answered (Preferences.control s)).
      + unfold outcome, Preferences.get_selection, bind, gets in Hsel.
        destruct (py_index _ _) as [sel' | ]; [ | discriminate ].
        injection Hsel as ->. rewrite Hfalse.
        rewrite (run_bind_ok _ _ _ _ _ Htoks). reflexivity.
      + rewrite (run_bind_ok _ _ _ _ _ Htoks). reflexivity. }
  assert (Hdone : forall s : Preferences.PreferenceApp,
             Wellformed.idle s -> Preferences.attributes s <> AOther ->
             Wellformed.idle s /\ Preferences.attributes s <> AOther /\
             Navigator.redraw snddevs s = (Ok None, s)).
  { intros s Hidle Hs. split; [ exact Hidle | ]. split; [ exact Hs | ].
    apply Hagain. exact Hidle. }
  unfold Navigator.redraw at 1. rewrite run_bind, pending_run.
  destruct (Preferences.answered (Preferences.control a)) eqn:Ha.
  - destruct (py_index _ _) as [sel | ] eqn:Hp; [ | discriminate ].
    assert (Hsel : Preferences.get_selection a = (Ok sel, a)).
    { unfold Preferences.get_selection, bind, gets. rewrite Hp. reflexivity. }
    destruct (truthy sel) eqn:Htruthy.
    + destruct (get_prompt_tokens_selected snddevs a sel Ha Hsel Htruthy)
        as [toks Htoks].
      rewrite run_bind, Htoks.
      destruct (Preferences.select_index snddevs sel (Preferences.attributes a) _)
        as [[ [] | e ] a1] eqn:Hrun; [ | discriminate ].
      intros [= <- <-].
      destruct (select_index_settles snddevs sel
                  (Preferences.set_breadcrumb
                     (Navigator.append_label (Preferences.breadcrumb a) sel) a)
                  a1 Hattr Htruthy Hrun) as [Hans Hne].
      apply Hdone; [ left; exact Hans | exact Hne ].
    + assert (Hidle : Wellformed.idle a).
      { right. exists sel. unfold outcome. rewrite Hsel.
        split; [ reflexivity | exact Htruthy ]. }
      destruct (render_idle snddevs a Hidle) as [toks Htoks].
      rewrite (run_bind_ok _ _ _ _ _ Htoks). intros [= <- <-].
      apply Hdone; assumption.
  - assert (Hidle : Wellformed.idle a) by (left; exact Ha).
    destruct (render_idle snddevs a Hidle) as [toks Htoks].
    rewrite (run_bind_ok _ _ _ _ _ Htoks). intros [= <- <-].
    apply Hdone; assumption.
Qed.

Lemma press_wf (snddevs : list string) (k : Navigator.Key)
      (a : Preferences.PreferenceApp) :
  snddevs <> [] ->
  Wellformed.wf a ->
  exists r a',
    Navigator.press snddevs k a = (Ok r, a') /\
    Wellformed.wf a' /\ Wellformed.idle a'.
Proof.
  intros Hdevs Hwf. unfold Navigator.press.
  destruct (handler_wf k a Hwf) as [a1 [Hrun Hwf1]].
  rewrite (run_bind_ok _ _ _ _ _ Hrun). apply redraw_wf; assumption.
Qed.

(** A choice in a state the keys can be pressed in succeeds, and leaves such
    a state, idle. *)
Lemma choose_wf (snddevs : list string) (n : nat) :
  snddevs <> [] ->
  forall a : Preferences.PreferenceApp,
    Wellformed.wf a ->
    exists labels a',
      Navigator.choose snddevs n a = (Ok labels, a') /\
      Wellformed.wf a' /\ Wellformed.idle a'.
Proof.
  intros Hdevs. induction n as [ | n IH ]; intros a Hwf; simpl Navigator.choose.
  - destruct (press_wf snddevs Navigator.Enter a Hdevs Hwf) as [r [a' [Hrun H]]].
    rewrite (run_bind_ok _ _ _ _ _ Hrun). eexists _, a'. split; [ reflexivity | exact H ].
  - destruct (press_wf snddevs Navigator.Down a Hdevs Hwf) as [r [a1 [Hrun [Hwf1 _]]]].
    rewrite (run_bind_ok _ _ _ _ _ Hrun).
    destruct (IH a1 Hwf1) as [labels [a' [Hrest H]]].
    rewrite (run_bind_ok _ _ _ _ _ Hrest). eexists _, a'. split; [ reflexivity | exact H ].
Qed.

(** What [get_config] loaded stays as it is: only [get_config] assigns
    [attr_header] and [root]. *)
Lemma press_origin (snddevs : list string) (k : Navigator.Key) :
  keeps (fun a => (Preferences.attr_header a, Preferences.root a))
        (Navigator.press snddevs k).
Proof.
  unfold Navigator.press, Navigator.redraw, Navigator.pending, Navigator.handler,
    Preferences.get_prompt_tokens, Preferences.select_index,
    Preferences._work_before_node, Preferences.set_child_control,
    Preferences._setval_if_key_is_node, Preferences.conf_set2, Preferences.conf_set1,
    Preferences.get_selection, Preferences.move_cursor_down, Preferences.move_cursor_up,
    Preferences.set_value, setitem1.
  destruct k; keeps_auto.
Qed.

Lemma redraw_origin (snddevs : list string) :
  keeps (fun a => (Preferences.attr_header a, Preferences.root a))
        (Navigator.redraw snddevs).
Proof.
  unfold Navigator.redraw, Navigator.pending,
    Preferences.get_prompt_tokens, Preferences.select_index,
    Preferences._work_before_node, Preferences.set_child_control,
    Preferences._setval_if_key_is_node, Preferences.conf_set2, Preferences.conf_set1,
    Preferences.get_selection, setitem1.
  keeps_auto.
Qed.

Lemma rooted_origin (a a' : Preferences.PreferenceApp) :
  (Preferences.attr_header a', Preferences.root a')
  = (Preferences.attr_header a, Preferences.root a) ->
  Wellformed.rooted a -> Wellformed.rooted a'.
Proof.
  intros [= Hh Hr] [header H]. exists header. rewrite Hh, Hr. exact H.
Qed.

(** The keys of a round, whatever they are, leave a state the keys can be
    pressed in. *)
Lemma run_keys_wf (snddevs : list string) (keys : list Navigator.Key) :
  snddevs <> [] ->
  forall a : Preferences.PreferenceApp,
    Wellformed.wf a -> Wellformed.rooted a ->
    exists labels a',
      Navigator.run_keys snddevs keys a = (Ok labels, a') /\
      Wellformed.wf a' /\ Wellformed.rooted a'.
Proof.
  intros Hdevs. induction keys as [ | k rest IH ]; intros a Hwf Hroot;
    simpl Navigator.run_keys.
  - exists [], a. split; [ reflexivity | split; assumption ].
  - unfold bind at 1. unfold gets at 1.
    destruct (Preferences.exited a).
    + exists [], a. split; [ reflexivity | split; assumption ].
    + destruct (press_wf snddevs k a Hdevs Hwf) as [r [a1 [Hrun [Hwf1 _]]]].
      pose proof (press_origin snddevs k a) as Ho.
      unfold state_after in Ho. rewrite Hrun in Ho. simpl in Ho.
      destruct (IH a1 Hwf1 (rooted_origin a a1 Ho Hroot)) as [labels [a' [Hrest H]]].
      rewrite (run_bind_ok _ _ _ _ _ Hrun), (run_bind_ok _ _ _ _ _ Hrest).
      eexists _, a'. split; [ reflexivity | exact H ].
Qed.

Lemma run_wf (snddevs : list string) (keys : list Navigator.Key)
      (a : Preferences.PreferenceApp) :
  snddevs <> [] ->
  Wellformed.wf a -> Wellformed.rooted a ->
  exists labels a',
    Navigator.run snddevs keys a = (Ok labels, a') /\
    Wellformed.wf a' /\ Wellformed.rooted a'.
Proof.
  intros Hdevs Hwf Hroot. unfold Navigator.run.
  unfold bind at 1. unfold modify at 1.
  set (a0 := Preferences.set_exited false a).
  assert (Hwf0 : Wellformed.wf a0) by exact Hwf.
  assert (Hroot0 : Wellformed.rooted a0) by exact Hroot.
  destruct (redraw_wf snddevs a0 Hdevs Hwf0) as [r [a1 [Hrun [Hwf1 _]]]].
  pose proof (redraw_origin snddevs a0) as Ho.
  unfold state_after in Ho. rewrite Hrun in Ho. simpl in Ho.
  destruct (run_keys_wf snddevs keys Hdevs a1 Hwf1 (rooted_origin a0 a1 Ho Hroot0))
    as [labels [a' [Hrest H]]].
  rewrite (run_bind_ok _ _ _ _ _ Hrun), (run_bind_ok _ _ _ _ _ Hrest).
  eexists _, a'. split; [ reflexivity | exact H ].
Qed.

(** [_initialize] puts the keys of what was loaded back on the screen. *)
Lemma initialize_wf (a : Preferences.PreferenceApp) :
  Wellformed.rooted a ->
  Wellformed.has_sections (Preferences.confdict a) ->
  Wellformed.wf (state_after Preferences._initialize a) /\
  Wellformed.rooted (state_after Preferences._initialize a).
Proof.
  intros [header (Hh & Hpop & Hne & Hkeys)] Hconf. split.
  - split; [ reflexivity | ]. split; [ | split; [ | exact Hconf ] ].
    + cbn. destruct (Preferences.root a); [ contradiction | simpl; lia ].
    + cbn. rewrite Hh. split; [ exact Hpop | exact Hkeys ].
  - exists header. split; [ exact Hh | ]. split; [ exact Hpop | ].
    split; [ exact Hne | exact Hkeys ].
Qed.

Lemma main_wf (snddevs : list string) (rounds : list (list Navigator.Key * bool)) :
  snddevs <> [] ->
  forall a : Preferences.PreferenceApp,
    Wellformed.wf a -> Wellformed.rooted a ->
    exists labels a',
      Navigator.main snddevs rounds a = (Ok labels, a') /\
      Wellformed.wf a' /\ Wellformed.rooted a'.
Proof.
  intros Hdevs. induction rounds as [ | [keys again] rest IH ]; intros a Hwf Hroot;
    simpl Navigator.main.
  - exists [], a. split; [ reflexivity | split; assumption ].
  - unfold bind at 1. unfold gets at 1.
    destruct (Preferences.want_to_continue a).
    2:{ exists [], a. split; [ reflexivity | split; assumption ]. }
    destruct (run_wf snddevs keys a Hdevs Hwf Hroot) as [labels [a1 [Hrun [Hwf1 Hroot1]]]].
    rewrite (run_bind_ok _ _ _ _ _ Hrun).
    unfold bind at 1. unfold gets at 1.
    destruct (Preferences.exited a1).
    2:{ exists labels, a1. split; [ reflexivity | split; assumption ]. }
    unfold bind at 1. unfold modify at 1.
    set (a2 := Preferences.set_want_to_continue again a1).
    assert (Hwf2 : Wellformed.wf a2) by exact Hwf1.
    assert (Hroot2 : Wellformed.rooted a2) by exact Hroot1.
    assert (Hnext : exists a3, when again Preferences._initialize a2 = (Ok tt, a3) /\
                               Wellformed.wf a3 /\ Wellformed.rooted a3).
    { destruct again; simpl.
      - exists (state_after Preferences._initialize a2). split; [ reflexivity | ].
        apply initialize_wf; [ exact Hroot2 | apply Hwf2 ].
      - exists a2. split; [ reflexivity | split; assumption ]. }
    destruct Hnext as [a3 [Hinit [Hwf3 Hroot3]]].
    rewrite (run_bind_ok _ _ _ _ _ Hinit).
    destruct (IH a3 Hwf3 Hroot3) as [more [a' [Hrest H]]].
    rewrite (run_bind_ok _ _ _ _ _ Hrest).
    eexists _, a'. split; [ reflexivity | exact H ].
Qed.

Lemma load_conf_keylist (config : list (string * attr)) (key : KeyType) :
  In key (snd (Preferences._load_conf config)) <->
  exists s child, key = KStr s /\ s <> "__description__" /\
                  assoc s config = Some child.
Proof.
  unfold Preferences._load_conf. cbn [snd].
  rewrite <- list_elem_of_In, list_elem_of_filter, list_elem_of_In. split.
  - intros [Hne Hin]. destruct (assoc_keys _ _ Hin) as [s [child [-> Hs]]].
    exists s, child. split; [ reflexivity | ]. split; [ | exact Hs ].
    intros ->. exact Hne.
  - intros [s [child [-> [Hne Hs]]]]. split.
    + simpl. destruct (String.eqb_spec s "__description__");
        [ contradiction | exact I ].
    + clear Hne. revert Hs.
      induction config as [ | [s' a'] rest IH ]; simpl; [ discriminate | ].
      destruct (String.eqb_spec s' s) as [-> | Hs']; [ auto | ].
      intros H. right. apply IH. exact H.
Qed.

Lemma start_wf (conf : gmap string json) (header : list (string * attr)) :
  Wellformed.populated (ADict header) = true ->
  snd (Preferences._load_conf header) <> [] ->
  Wellformed.has_sections conf ->
  Wellformed.wf (Navigator.start conf header).
Proof.
  intros Hpop Hne Hconf. unfold Navigator.start.
  unfold Preferences._load_conf in *. simpl in Hne.
  split; [ reflexivity | ]. split; [ | split; [ | exact Hconf ] ].
  - cbn in *. destruct (filter _ (keys header)); [ contradiction | simpl; lia ].
  - cbn. split; [ exact Hpop | ]. intros key Hin.
    apply (proj1 (load_conf_keylist header key)) in Hin
      as [s [child [-> [_ Hs]]]].
    eauto.
Qed.

Lemma start_rooted (conf : gmap string json) (header : list (string * attr)) :
  Wellformed.populated (ADict header) = true ->
  snd (Preferences._load_conf header) <> [] ->
  Wellformed.rooted (Navigator.start conf header).
Proof.
  intros Hpop Hne. exists header. split; [ reflexivity | ].
  split; [ exact Hpop | ]. split; [ exact Hne | ].
  intros key Hin.
  apply (proj1 (load_conf_keylist header key)) in Hin as [s [child [-> [_ Hs]]]].
  eauto.
Qed.

(** A list with an entry can be put on the screen. *)
Lemma choiced_tokens_ok (c : Preferences.InquirerControl) :
  Preferences.ic_nodes c <> [] ->
  exists tokens, Choices._get_choiced_tokens c = Ok tokens.
Proof.
  intros Hne. unfold Choices._get_choiced_tokens.
  destruct (Preferences.ic_nodes c) as [ | x rest ]; [ contradiction | ].
  cbn [Choices.append_all]. unfold Choices._append.
  destruct (Z.eqb 0 (Preferences.selected_index c)); simpl; eexists; reflexivity.
Qed.

(** X1. With attributes whose dicts and lists are not empty, a
    configuration that has its three sections and a sound device to offer,
    [main] does not raise, whatever keys are typed in whatever number of
    rounds and whatever is answered to the dialog between them: every key is
    handled, every redraw of the prompt line succeeds, and the state left
    has an entry under the cursor, so that the list of choices can be drawn
    as well. *)
Theorem wizard_never_raises (conf : gmap string json)
        (header : list (string * attr)) (snddevs : list string)
        (rounds : list (list Navigator.Key * bool)) :
  Wellformed.populated (ADict header) = true ->
  snd (Preferences._load_conf header) <> [] ->
  Wellformed.has_sections conf ->
  snddevs <> [] ->
  let session := Navigator.main snddevs rounds in
  let a' := state_after session (Navigator.start conf header) in
  (exists labels, outcome session (Navigator.start conf header) = Ok labels) /\
  Wellformed.wf a' /\
  (exists sel, outcome Preferences.get_selection a' = Ok sel) /\
  (exists tokens, Choices._get_choiced_tokens (Preferences.control a') = Ok tokens).
Proof.
  intros Hpop Hkeys Hconf Hdevs session a'.
  destruct (main_wf snddevs rounds Hdevs _
              (start_wf conf header Hpop Hkeys Hconf)
              (start_rooted conf header Hpop Hkeys))
    as [labels [a1 [Hrun [Hwf _]]]].
  assert (Ha' : a' = a1).
  { unfold a', session, state_after. rewrite Hrun. reflexivity. }
  rewrite Ha'. split; [ | split; [ exact Hwf | ] ].
  - exists labels. unfold outcome, session. rewrite Hrun. reflexivity.
  - destruct Hwf as (Hn & Hi & _). split.
    + unfold outcome, Preferences.get_selection, bind, gets. rewrite Hn.
      rewrite py_index_nth by exact Hi.
      destruct (nth_error _ _) as [sel | ] eqn:E; [ eauto | ].
      apply nth_error_None in E. lia.
    + apply choiced_tokens_ok. rewrite Hn.
      destruct (Preferences.nodes a1); [ simpl in Hi; lia | discriminate ].
Qed.

Lemma wizard_never_raises_witness :
  let session :=
    Navigator.main ["hw:0"]
      [([Navigator.Enter; Navigator.Enter; Navigator.Down; Navigator.Enter;
         Navigator.Down], true);
       ([Navigator.Up; Navigator.Enter; Navigator.Interrupt; Navigator.Enter], false)] in
  (exists labels, outcome session Scenario.app1 = Ok labels) /\
  Wellformed.wf (state_after session Scenario.app1).
Proof.
  intros session.
  destruct (wizard_never_raises Scenario.sections Scenario.schema ["hw:0"]
              [([Navigator.Enter; Navigator.Enter; Navigator.Down; Navigator.Enter;
                 Navigator.Down], true);
               ([Navigator.Up; Navigator.Enter; Navigator.Interrupt; Navigator.Enter],
                false)]) as [Hout [Hwf _]].
  - reflexivity.
  - vm_compute. discriminate.
  - intros sect Hin. simpl in Hin.
    destruct Hin as [<- | [<- | [<- | []]]]; eexists; reflexivity.
  - discriminate.
  - split; [ exact Hout | exact Hwf ].
Defined.

(** X3. After a choice the prompt line can be rendered again and again: the
    answer is no longer pending, or is a label that is false in an [if], and
    rendering changes nothing. *)
Theorem rendering_again_changes_nothing (snddevs : list string) (n : nat)
        (a : Preferences.PreferenceApp) :
  snddevs <> [] ->
  Wellformed.wf a ->
  exists tokens,
    Preferences.get_prompt_tokens snddevs (state_after (Navigator.choose snddevs n) a)
    = (Ok tokens, state_after (Navigator.choose snddevs n) a).
Proof.
  intros Hdevs Hwf.
  destruct (choose_wf snddevs n Hdevs a Hwf) as [labels [a' [Hrun [_ Hidle]]]].
  unfold state_after. rewrite Hrun. simpl.
  apply render_idle. exact Hidle.
Qed.

Lemma rendering_again_changes_nothing_witness :
  exists tokens,
    Preferences.get_prompt_tokens ["hw:0"]
      (state_after (Navigator.choose ["hw:0"] 0) Scenario.app1)
    = (Ok tokens, state_after (Navigator.choose ["hw:0"] 0) Scenario.app1).
Proof.
  apply (rendering_again_changes_nothing ["hw:0"] 0 Scenario.app1).
  - discriminate.
  - apply start_wf.
    + reflexivity.
    + vm_compute. discriminate.
    + intros sect Hin. simpl in Hin.
      destruct Hin as [<- | [<- | [<- | []]]]; eexists; reflexivity.
Defined.

(** X4. On a list with an entry under the cursor, the up key undoes the down
    key and the down key the up key; [k] presses of the down key move the
    cursor [k] entries on modulo the length of the list, so as many presses
    as the list has entries leave the application as it was. *)
Theorem cursor_keys_compose (a : Preferences.PreferenceApp) :
  let c := Preferences.control a in
  0 <= Preferences.selected_index c < Preferences.choice_count c ->
  (do_ Preferences.move_cursor_down; Preferences.move_cursor_up) a = (Ok tt, a) /\
  (do_ Preferences.move_cursor_up; Preferences.move_cursor_down) a = (Ok tt, a) /\
  (forall k : nat,
      outcome (Navigator.press_down k) a = Ok tt /\
      Preferences.selected_index
        (Preferences.control (state_after (Navigator.press_down k) a))
      = (Preferences.selected_index c + Z.of_nat k) mod Preferences.choice_count c) /\
  Navigator.press_down (length (Preferences.ic_nodes c)) a = (Ok tt, a).
Proof.
  intros c Hi.
  assert (Hn : 0 < Preferences.choice_count c) by lia.
  split; [ | split; [ | split ] ].
  - rewrite (run_bind_ok _ _ _ _ _ (preferences_down_run a Hn)).
    rewrite preferences_up_run by exact Hn.
    f_equal. rewrite <- (preferences_same_cursor a _ eq_refl) at 3.
    unfold Preferences.set_control, Preferences.set_selected_index. cbn.
    fold c. change (Z.of_nat (length (Preferences.ic_nodes c)))
      with (Preferences.choice_count c).
    rewrite mod_down_up by exact Hi.
    subst c. clear. destruct a as [? ? ? [? ? ?] ? ? ? ? ? ? ?]. reflexivity.
  - rewrite (run_bind_ok _ _ _ _ _ (preferences_up_run a Hn)).
    rewrite preferences_down_run by exact Hn.
    f_equal. rewrite <- (preferences_same_cursor a _ eq_refl) at 3.
    unfold Preferences.set_control, Preferences.set_selected_index. cbn.
    fold c. change (Z.of_nat (length (Preferences.ic_nodes c)))
      with (Preferences.choice_count c).
    rewrite mod_up_down by exact Hi.
    subst c. clear. destruct a as [? ? ? [? ? ?] ? ? ? ? ? ? ?]. reflexivity.
  - intros k. unfold outcome, state_after.
    rewrite (press_down_run k a Hi). split; reflexivity.
  - rewrite (press_down_run _ a Hi). f_equal. fold c.
    apply preferences_same_cursor.
    change (Z.of_nat (length (Preferences.ic_nodes c)))
      with (Preferences.choice_count c).
    rewrite <- (Z.mul_1_l (Preferences.choice_count c)) at 1.
    rewrite Z.mod_add by lia. apply Z.mod_small. exact Hi.
Qed.

Lemma cursor_keys_compose_witness :
  Navigator.press_down 2 Scenario.app_rates = (Ok tt, Scenario.app_rates).
Proof.
  apply (cursor_keys_compose Scenario.app_rates).
  vm_compute. split; [ discriminate | reflexivity ].
Defined.

(** ** Properties kept by the computations *)

Lemma preserves_ret {S A} (P : S -> Prop) (x : A) : Wellformed.preserves P (ret x).
Proof. intros s H. exact H. Qed.

Lemma preserves_bind {S A B} (P : S -> Prop) (m : M S A) (k : A -> M S B) :
  Wellformed.preserves P m -> (forall x, Wellformed.preserves P (k x)) ->
  Wellformed.preserves P (bind m k).
Proof.
  intros Hm Hk s Hs. unfold state_after, bind.
  specialize (Hm s Hs). unfold state_after in Hm.
  destruct (m s) as [[x | e] s']; simpl in *.
  - apply Hk. exact Hm.
  - exact Hm.
Qed.

Lemma preserves_keeps {S A X} (f : S -> X) (Q : X -> Prop) (m : M S A) :
  keeps f m -> Wellformed.preserves (fun s => Q (f s)) m.
Proof. intros Hk s Hs. rewrite (Hk s). exact Hs. Qed.

(** ** The device position that sticks *)

Lemma in_lits_is_str (key : KeyType) (lits : list string) :
  in_lits key lits = true -> exists s, key = KStr s /\ In s lits.
Proof.
  unfold in_lits. rewrite existsb_exists. intros [s [Hin Heq]].
  apply eq_lit_true in Heq. eauto.
Qed.

Lemma in_lits_of_str (s : string) (lits : list string) :
  In s lits -> in_lits (KStr s) lits = true.
Proof.
  intros Hin. unfold in_lits. apply existsb_exists. exists s.
  split; [ exact Hin | ]. simpl. apply String.eqb_refl.
Qed.

Lemma preferences_conf_set2_current sect k v :
  keeps Preferences.current_node (Preferences.conf_set2 sect k v).
Proof.
  unfold Preferences.conf_set2. apply keeps_bind; [ keeps_auto | intros c ].
  destruct (setitem2 sect k (JKey v) c); keeps_auto.
Qed.

Lemma setval_current key_prev selected :
  keeps Preferences.current_node (Preferences._setval_if_key_is_node key_prev selected).
Proof.
  unfold Preferences._setval_if_key_is_node, Preferences.conf_set1, setitem1.
  repeat first [ apply preferences_conf_set2_current | keeps_step ].
Qed.

Lemma set_child_control_current key attributes_ :
  keeps Preferences.current_node (Preferences.set_child_control key attributes_).
Proof.
  unfold Preferences.set_child_control.
  repeat first [ apply getitem_keeps | keeps_step
               | match goal with
                 | |- keeps _ (match ?x with _ => _ end) => destruct x
                 end ].
Qed.

Lemma get_selection_current : keeps Preferences.current_node Preferences.get_selection.
Proof. intros a. now rewrite get_selection_pure. Qed.

Lemma handler_current (k : Navigator.Key) :
  keeps Preferences.current_node (Navigator.handler k).
Proof.
  destruct k; simpl;
    unfold Preferences.move_cursor_down, Preferences.move_cursor_up,
      Preferences.set_value; repeat keeps_step.
Qed.

(** On a device position, [self.current_node] moves to a device position
    only. *)
Lemma work_before_node_on_device snddevs key attr_ :
  Wellformed.preserves
    (fun a => exists s, Preferences.current_node a = KStr s /\ In s device_positions)
    (Preferences._work_before_node snddevs key attr_).
Proof.
  intros a [s [Hcur Hs]]. unfold state_after, Preferences._work_before_node.
  destruct attr_ as [items | l | ].
  - destruct (in_lits key device_positions) eqn:Hdev.
    + apply in_lits_is_str in Hdev as [s' [-> Hs']]. exists s'. split; [ reflexivity | exact Hs' ].
    + pose proof (keeps_bind _ _ (fun _ : unit => ret (S:=Preferences.PreferenceApp)
                                                    (@None KeyType))
                    (set_child_control_current key (ADict items))
                    (fun _ => keeps_ret _ _) a) as Hk.
      unfold state_after in Hk. rewrite Hk. eauto.
  - unfold bind, gets, modify, ret. cbv beta iota zeta. rewrite Hcur. cbn [str].
    rewrite (in_lits_of_str s device_positions Hs). simpl. eauto.
  - simpl. eauto.
Qed.

Lemma select_index_on_device snddevs key attributes_ :
  Wellformed.preserves
    (fun a => exists s, Preferences.current_node a = KStr s /\ In s device_positions)
    (Preferences.select_index snddevs key attributes_).
Proof.
  unfold Preferences.select_index.
  apply preserves_bind; [ apply work_before_node_on_device | intros result ].
  destruct result as [selected | ]; [ | apply preserves_ret ].
  destruct (truthy selected); [ | apply preserves_ret ].
  apply (preserves_keeps Preferences.current_node
           (fun cur => exists s, cur = KStr s /\ In s device_positions)).
  apply keeps_bind; [ keeps_step | intros key_prev; apply setval_current ].
Qed.

Lemma get_prompt_tokens_on_device snddevs :
  Wellformed.preserves
    (fun a => exists s, Preferences.current_node a = KStr s /\ In s device_positions)
    (Preferences.get_prompt_tokens snddevs).
Proof.
  pose (P := fun a => exists s, Preferences.current_node a = KStr s /\ In s device_positions).
  assert (Hk : forall A (m : Preferences.App A),
             keeps Preferences.current_node m -> Wellformed.preserves P m).
  { intros A m Hm. apply (preserves_keeps Preferences.current_node
                            (fun cur => exists s, cur = KStr s /\ In s device_positions)).
    exact Hm. }
  fold P. unfold Preferences.get_prompt_tokens.
  apply preserves_bind; [ apply Hk; keeps_step | intros c ].
  apply preserves_bind.
  { destruct (Preferences.answered c); [ | apply preserves_ret ].
    apply preserves_bind; [ apply Hk, get_selection_current | intros k; apply preserves_ret ]. }
  intros [sel | ]; [ | apply Hk; repeat keeps_step ].
  destruct (truthy sel); [ | apply Hk; repeat keeps_step ].
  apply preserves_bind; [ apply Hk; keeps_step | intros b ].
  apply preserves_bind.
  { destruct (negb (String.eqb b "")); apply Hk; repeat keeps_step. }
  intros tokens.
  apply preserves_bind; [ apply Hk; keeps_step | intros b' ].
  apply preserves_bind; [ apply Hk; repeat keeps_step | intros _ ].
  apply preserves_bind; [ apply Hk; keeps_step | intros attrs ].
  apply preserves_bind; [ apply select_index_on_device | intros _; apply preserves_ret ].
Qed.

Lemma walk_on_device snddevs (presses : list nat) :
  Wellformed.preserves
    (fun a => exists s, Preferences.current_node a = KStr s /\ In s device_positions)
    (Navigator.walk snddevs presses).
Proof.
  pose (P := fun a => exists s, Preferences.current_node a = KStr s /\ In s device_positions).
  assert (Hk : forall A (m : Preferences.App A),
             keeps Preferences.current_node m -> Wellformed.preserves P m).
  { intros A m Hm. apply (preserves_keeps Preferences.current_node
                            (fun cur => exists s, cur = KStr s /\ In s device_positions)).
    exact Hm. }
  assert (Hredraw : Wellformed.preserves P (Navigator.redraw snddevs)).
  { unfold Navigator.redraw.
    apply preserves_bind.
    - apply Hk. intros a. unfold state_after. rewrite pending_run.
      destruct (Preferences.answered _); [ destruct (py_index _ _) | ]; reflexivity.
    - intros sel. apply preserves_bind;
        [ apply get_prompt_tokens_on_device | intros _; apply preserves_ret ]. }
  fold P. unfold Navigator.walk, Navigator.run.
  apply preserves_bind; [ apply Hk; keeps_step | intros _ ].
  apply preserves_bind; [ exact Hredraw | intros first ].
  apply preserves_bind; [ | intros more; apply preserves_ret ].
  induction (Navigator.keys_of presses) as [ | k rest IH ]; simpl Navigator.run_keys;
    [ apply preserves_ret | ].
  apply preserves_bind; [ apply Hk; keeps_step | intros x ].
  destruct x; [ apply preserves_ret | ].
  apply preserves_bind.
  - unfold Navigator.press.
    apply preserves_bind; [ apply Hk, handler_current | intros _; exact Hredraw ].
  - intros sel. apply preserves_bind; [ exact IH | intros sels; apply preserves_ret ].
Qed.

(** X5. Once a device position was chosen, [self.current_node] names a device
    position for the rest of the session: through every later choice and
    through [_initialize]. Every truthy entry chosen in a list from then on
    is written to that position of [devices], whatever list it comes
    from. *)
Theorem device_position_sticks (snddevs : list string)
        (a : Preferences.PreferenceApp) (s : string) :
  Preferences.current_node a = KStr s ->
  In s device_positions ->
  (forall presses : list nat,
      exists s',
        Preferences.current_node (state_after (Navigator.walk snddevs presses) a)
          = KStr s' /\ In s' device_positions) /\
  Preferences.current_node (state_after Preferences._initialize a) = KStr s /\
  (forall (v : KeyType) (l : list KeyType) (d : gmap string json),
      truthy v = true ->
      Preferences.confdict a !! "devices" = Some (JDict d) ->
      outcome (Preferences.select_index snddevs v (AList l)) a = Ok tt /\
      Preferences.confdict (state_after (Preferences.select_index snddevs v (AList l)) a)
      = <["devices" := JDict (<[s := JKey v]> d)]> (Preferences.confdict a)).
Proof.
  intros Hcur Hs. split; [ | split ].
  - intros presses. apply (walk_on_device snddevs presses a). eauto.
  - exact Hcur.
  - intros v l d Hv Hd.
    assert (Hrun : Preferences.select_index snddevs v (AList l) a
                   = Preferences._setval_if_key_is_node (KStr s) v
                       (Preferences.set_attributes (AList []) a)).
    { unfold Preferences.select_index, Preferences._work_before_node.
      unfold bind, gets, modify, ret. cbv beta iota zeta.
      rewrite Hcur. cbn [str]. rewrite (in_lits_of_str s device_positions Hs).
      cbv beta iota zeta. rewrite Hv.
      cbn [Preferences.current_node Preferences.set_attributes]. rewrite Hcur.
      reflexivity. }
    unfold outcome, state_after. rewrite Hrun.
    rewrite (setval_devices_rule s v (Preferences.set_attributes (AList []) a) d Hs Hd).
    split; reflexivity.
Qed.

Lemma device_position_sticks_witness :
  let a := state_after (Navigator.walk ["hw:0"; "hw:1"] [0; 0; 1]%nat)
             (Navigator.start Scenario.sections
                [("devices", ADict [("main", AOther)]);
                 ("hw_params", ADict [("rate", AList [KInt 44100; KInt 48000])])]) in
  Preferences.current_node (state_after Preferences._initialize a) = KStr "main" /\
  Preferences.confdict
    (state_after (Preferences.select_index ["hw:0"; "hw:1"] (KInt 48000)
                    (AList [KInt 44100; KInt 48000])) a)
  = <["devices" := JDict (<["main" := JKey (KInt 48000)]> {["main" := JKey (KStr "hw:1")]})]>
      (Preferences.confdict a).
Proof.
  intros a.
  destruct (device_position_sticks ["hw:0"; "hw:1"] a "main") as [_ [Hinit Hwrite]].
  - reflexivity.
  - left. reflexivity.
  - split; [ exact Hinit | ].
    apply (Hwrite (KInt 48000) [KInt 44100; KInt 48000]
             {["main" := JKey (KStr "hw:1")]}).
    + reflexivity.
    + vm_compute. reflexivity.
Defined.

(** ** What a choice in a list writes *)

Lemma destination_not_str (v : KeyType) :
  (forall s, v <> KStr s) -> Routing.destination v = None.
Proof.
  intros Hv. destruct (Routing.destination v) as [d | ] eqn:Hd; [ | reflexivity ].
  apply destination_cases in Hd.
  decompose [or and] Hd; subst;
    match goal with
    | H : forall s, KStr ?x <> KStr s |- _ => destruct (H x eq_refl)
    end.
Qed.

(** X6. Outside the device lists a truthy entry chosen in a list is routed
    under itself: the configuration is written only if the entry is one of
    the keys of the table, at the place of that key. An entry that is a
    number is never written, so no choice changes the rate, the period size
    or the channels. *)
Theorem leaf_is_routed_under_itself (snddevs : list string) (v : KeyType)
        (l : list KeyType) (a : Preferences.PreferenceApp) :
  Wellformed.is_device (Preferences.current_node a) = false ->
  truthy v = true ->
  Preferences.confdict (state_after (Preferences.select_index snddevs v (AList l)) a)
  = match Routing.route v (JKey v) (Preferences.confdict a) with
    | Ok c' => c'
    | Raise _ => Preferences.confdict a
    end /\
  ((forall s, v <> KStr s) ->
   Preferences.select_index snddevs v (AList l) a
   = (Ok tt,
      Routing.post_process
        (Preferences.set_attributes (AList []) (Preferences.set_current_node v a)))).
Proof.
  intros Hcur Hv.
  unfold state_after.
  rewrite (select_index_leaf snddevs v l a Hcur Hv).
  rewrite setval_route.
  cbn [Preferences.confdict Preferences.set_attributes Preferences.set_current_node].
  split.
  - destruct (Routing.route v (JKey v) (Preferences.confdict a)); reflexivity.
  - intros Hnum. unfold Routing.route. rewrite (destination_not_str v Hnum).
    reflexivity.
Qed.

Lemma leaf_is_routed_under_itself_witness :
  Preferences.confdict
    (state_after (Preferences.select_index [] (KInt 48000)
                    (AList [KInt 44100; KInt 48000])) Scenario.app_rates)
  = Scenario.conf0.
Proof.
  apply (proj1 (leaf_is_routed_under_itself [] (KInt 48000)
                  [KInt 44100; KInt 48000] Scenario.app_rates eq_refl eq_refl)).
Defined.

(** X7. [_setval_if_key_is_node] changes at most the place the table gives
    for its key: every place apart from it reads as before. No key is routed
    to [filter_params.mu], which no routing ever changes. *)
Theorem routing_writes_one_place (key_prev selected : KeyType)
        (a : Preferences.PreferenceApp) :
  (forall p : Routing.Dest,
      (forall d, Routing.destination key_prev = Some d -> Routing.apart d p) ->
      Routing.read p
        (Preferences.confdict
           (state_after (Preferences._setval_if_key_is_node key_prev selected) a))
      = Routing.read p (Preferences.confdict a)) /\
  Routing.read (Routing.Nested "filter_params" "mu")
    (Preferences.confdict
       (state_after (Preferences._setval_if_key_is_node key_prev selected) a))
  = Routing.read (Routing.Nested "filter_params" "mu") (Preferences.confdict a).
Proof.
  split; [ intros p; apply setval_frame | ].
  apply setval_frame. intros d Hd. apply destination_cases in Hd.
  decompose [or and] Hd; subst; simpl;
    first [ discriminate | left; discriminate | right; discriminate ].
Qed.

Lemma routing_writes_one_place_witness :
  Routing.read (Routing.Nested "hw_params" "rate")
    (Preferences.confdict
       (state_after (Preferences._setval_if_key_is_node (KStr "channels") (KInt 2))
                    Scenario.app0))
  = Some (JKey (KInt 44100)).
Proof.
  apply (proj1 (routing_writes_one_place (KStr "channels") (KInt 2) Scenario.app0)
           (Routing.Nested "hw_params" "rate")).
  intros d [= <-]. right. discriminate.
Defined.

(** ** An empty list on the screen *)

Lemma py_index_nil {A} (i : Z) : py_index (@nil A) i = None.
Proof.
  unfold py_index. change (Z.of_nat (length (@nil A))) with 0. change (- 0) with 0.
  destruct (Z.leb 0 i), (Z.ltb i 0); simpl; try reflexivity;
    destruct (Z.to_nat _); reflexivity.
Qed.

(** X8. On an empty list the cursor keys raise [ZeroDivisionError] and the
    selection raises [IndexError], the application being left as it was, so
    that every choice raises. Choosing a device position while no sound
    device is reported leaves such a list. *)
Theorem keys_raise_on_an_empty_list (snddevs : list string)
        (a : Preferences.PreferenceApp) :
  (Preferences.ic_nodes (Preferences.control a) = [] ->
   Preferences.move_cursor_down a = (Raise ZeroDivisionError, a) /\
   Preferences.move_cursor_up a = (Raise ZeroDivisionError, a) /\
   Preferences.get_selection a = (Raise IndexError, a) /\
   forall n : nat,
     outcome (Navigator.choose snddevs n) a
     = Raise (match n with O => IndexError | S _ => ZeroDivisionError end)) /\
  (forall (key : KeyType) (items : list (string * attr)),
      in_lits key device_positions = true ->
      outcome (Preferences.select_index [] key (ADict items)) a = Ok tt /\
      Preferences.ic_nodes
        (Preferences.control
           (state_after (Preferences.select_index [] key (ADict items)) a)) = []).
Proof.
  split.
  - intros Hempty.
    assert (Hcount : Preferences.choice_count (Preferences.control a) = 0).
    { unfold Preferences.choice_count. now rewrite Hempty. }
    assert (Hdown : Preferences.move_cursor_down a = (Raise ZeroDivisionError, a)).
    { unfold Preferences.move_cursor_down, bind, gets. rewrite Hcount. reflexivity. }
    assert (Hsel : forall a' : Preferences.PreferenceApp,
               Preferences.ic_nodes (Preferences.control a') = [] ->
               Preferences.get_selection a' = (Raise IndexError, a')).
    { intros a' H'. unfold Preferences.get_selection, bind, gets. rewrite H'.
      rewrite py_index_nil. reflexivity. }
    split; [ exact Hdown | ]. split; [ | split; [ apply Hsel; exact Hempty | ] ].
    + unfold Preferences.move_cursor_up, bind, gets. rewrite Hcount. reflexivity.
    + intros [ | n]; unfold outcome; simpl Navigator.choose;
        unfold Navigator.press, Navigator.handler.
      * rewrite run_bind, run_bind, set_value_run.
        unfold Navigator.redraw. rewrite run_bind, pending_run.
        cbn [Preferences.control Preferences.set_control Preferences.answered
             Preferences.set_answered Preferences.ic_nodes Preferences.selected_index].
        rewrite Hempty, py_index_nil. reflexivity.
      * rewrite run_bind, run_bind, Hdown. reflexivity.
  - intros key items Hdev.
    unfold outcome, state_after, Preferences.select_index, Preferences._work_before_node.
    rewrite Hdev. split; reflexivity.
Qed.

Lemma keys_raise_on_an_empty_list_witness :
  let a := state_after
             (Preferences.select_index [] (KStr "main") (ADict [("main", AOther)]))
             Scenario.app1 in
  outcome (Navigator.choose [] 0) a = Raise IndexError /\
  outcome (Navigator.choose [] 2) a = Raise ZeroDivisionError.
Proof.
  intros a.
  destruct (proj1 (keys_raise_on_an_empty_list [] a) eq_refl)
    as [_ [_ [_ Hchoose]]].
  split; [ exact (Hchoose 0%nat) | exact (Hchoose 2%nat) ].
Defined.

(** ** The list of choices *)

Lemma append_all_rows (sel i : Z) (labels : list KeyType) :
  sel < i \/ i + Z.of_nat (length labels) <= sel ->
  Choices.append_all sel i labels = Choices.rows labels.
Proof.
  revert i. induction labels as [ | x rest IH ]; intros i Hout; [ reflexivity | ].
  cbn [Choices.append_all]. unfold Choices._append.
  destruct (Z.eqb_spec i sel) as [-> | _]; [ simpl length in Hout; lia | ].
  rewrite IH by (simpl length in Hout; lia). reflexivity.
Qed.

Lemma append_all_split (i : Z) (before : list KeyType) (sel : KeyType)
      (after : list KeyType) :
  Choices.append_all (i + Z.of_nat (length before)) i (before ++ sel :: after)
  = Choices.rows before
      ++ [(Choices.Selected, " > "); (Choices.SetCursorPosition, "");
          (Choices.Selected, Choices.ljust24 (str sel)); (Choices.Plain, newline)]
      ++ Choices.rows after.
Proof.
  revert i. induction before as [ | x rest IH ]; intros i.
  - simpl length. rewrite Z.add_0_r. change ([] ++ sel :: after) with (sel :: after).
    cbn [Choices.append_all]. unfold Choices._append.
    rewrite Z.eqb_refl. rewrite append_all_rows by lia. reflexivity.
  - replace (i + Z.of_nat (length (x :: rest)))
      with ((i + 1) + Z.of_nat (length rest)) by (simpl length; lia).
    change ((x :: rest) ++ sel :: after) with (x :: (rest ++ sel :: after)).
    cbn [Choices.append_all]. rewrite IH. unfold Choices._append.
    destruct (Z.eqb_spec i (i + 1 + Z.of_nat (length rest))) as [E | _]; [ lia | ].
    reflexivity.
Qed.

Lemma rows_length (labels : list KeyType) :
  length (Choices.rows labels) = (3 * length labels)%nat.
Proof. induction labels as [ | x rest IH ]; simpl; [ reflexivity | ]. rewrite IH. lia. Qed.

Lemma removelast_shorter {A} (l : list A) :
  length (removelast l) = (length l - 1)%nat.
Proof.
  induction l as [ | x [ | y rest] IH ]; try reflexivity.
  change (removelast (x :: y :: rest)) with (x :: removelast (y :: rest)).
  simpl length in *. rewrite IH. lia.
Qed.

(** X9. [_get_choiced_tokens] raises [IndexError] on an empty list. On a
    list with the cursor on an entry it gives three tokens for each entry
    before it, the mark, the cursor position and the label of that entry,
    which is the one [get_selection] returns, and three tokens for each entry
    after it, the last line break taken away. *)
Theorem choiced_tokens_mark_the_selection (c : Preferences.InquirerControl) :
  (Preferences.ic_nodes c = [] -> Choices._get_choiced_tokens c = Raise IndexError) /\
  (forall (before : list KeyType) (sel : KeyType) (after : list KeyType),
      Preferences.ic_nodes c = before ++ sel :: after ->
      Preferences.selected_index c = Z.of_nat (length before) ->
      py_index (Preferences.ic_nodes c) (Preferences.selected_index c) = Some sel /\
      exists tokens,
        Choices._get_choiced_tokens c = Ok tokens /\
        tokens = Choices.rows before
                   ++ [(Choices.Selected, " > "); (Choices.SetCursorPosition, "");
                       (Choices.Selected, Choices.ljust24 (str sel))]
                   ++ removelast ((Choices.Plain, newline) :: Choices.rows after) /\
        length tokens = (3 * length (Preferences.ic_nodes c))%nat).
Proof.
  split.
  - intros Hempty. unfold Choices._get_choiced_tokens. rewrite Hempty. reflexivity.
  - intros before sel after Hnodes Hidx. split.
    + rewrite Hnodes, Hidx. rewrite py_index_nth.
      * rewrite Nat2Z.id. rewrite nth_error_app2 by lia.
        rewrite Nat.sub_diag. reflexivity.
      * rewrite length_app. simpl length. lia.
    + unfold Choices._get_choiced_tokens. rewrite Hnodes, Hidx.
      pose proof (append_all_split 0 before sel after) as Hsplit.
      rewrite Z.add_0_l in Hsplit. rewrite Hsplit.
      set (row := [(Choices.Selected, " > "); (Choices.SetCursorPosition, "");
                   (Choices.Selected, Choices.ljust24 (str sel))]).
      assert (Htok : removelast
                       (Choices.rows before
                          ++ (row ++ [(Choices.Plain, newline)]) ++ Choices.rows after)
                     = Choices.rows before ++ row
                         ++ removelast ((Choices.Plain, newline) :: Choices.rows after)).
      { rewrite <- !app_assoc.
        rewrite removelast_app by (unfold row; discriminate).
        reflexivity. }
      change [(Choices.Selected, " > "); (Choices.SetCursorPosition, "");
              (Choices.Selected, Choices.ljust24 (str sel)); (Choices.Plain, newline)]
        with (row ++ [(Choices.Plain, newline)]).
      destruct (Choices.rows before ++ (row ++ [(Choices.Plain, newline)])
                  ++ Choices.rows after) as [ | t ts] eqn:E.
      { destruct (Choices.rows before); discriminate E. }
      exists (removelast (t :: ts)). split; [ reflexivity | ].
      rewrite Htok. split; [ reflexivity | ].
      rewrite !length_app. rewrite rows_length.
      assert (Hlast : length (removelast ((Choices.Plain, newline) :: Choices.rows after))
                      = (3 * length after)%nat).
      { pose proof (rows_length after) as Hr.
        pose proof (removelast_shorter ((Choices.Plain, newline) :: Choices.rows after))
          as Hs.
        rewrite Hs. simpl length. lia. }
      rewrite Hlast. simpl length. lia.
Qed.

Lemma choiced_tokens_mark_the_selection_witness :
  exists tokens,
    Choices._get_choiced_tokens
      (Preferences.mkIC [KInt 44100; KInt 48000] 1 false) = Ok tokens /\
    length tokens = 6%nat.
Proof.
  destruct (proj2 (choiced_tokens_mark_the_selection
                     (Preferences.mkIC [KInt 44100; KInt 48000] 1 false))
              [KInt 44100] (KInt 48000) [] eq_refl eq_refl)
    as [_ [tokens [Hrun [_ Hlen]]]].
  exists tokens. split; [ exact Hrun | exact Hlen ].
Defined.

(** ** preference.py from its first key on *)

(** X10. Whatever files were loaded, the first press of the enter key in
    preference.py raises [AttributeError]: the label under the cursor is in
    the breadcrumb by then and the configuration is as loaded. The answer
    stays pending, so rendering the prompt line again raises again and
    appends the label once more. With no choice at all the key raises
    [IndexError]. *)
Theorem first_enter_raises (answer : bool) (conf : gmap string json)
        (attributes_ : attr) (first : KeyType) (rest : list KeyType) :
  let a := Preference.init conf attributes_ (first :: rest) in
  let a1 := state_after (Preference.set_value answer) a in
  let a2 := state_after (Preference.get_prompt_tokens answer) a1 in
  outcome (Preference.set_value answer) a = Raise (AttributeError "current_choice") /\
  Preference.breadcrumb a1 = " " +:+ str first /\
  Preference.confdict a1 = conf /\
  outcome (Preference.get_prompt_tokens answer) a1
    = Raise (AttributeError "current_choice") /\
  Preference.breadcrumb a2 = ((" " +:+ str first) +:+ " >") +:+ " " +:+ str first /\
  Preference.confdict a2 = conf /\
  outcome (Preference.set_value answer) (Preference.init conf attributes_ [])
    = Raise IndexError.
Proof.
  destruct answer; repeat split.
Qed.

(** ** What [_pref_conf] writes *)

(** X11. [_pref_conf] writes into [hw_params] and nowhere else: under [rate]
    for the choice [rate], under [fomatname] for every other choice. It
    returns [None]; without a dict under [hw_params] it raises and changes
    nothing. No other key of the configuration is changed, whatever the
    choice. *)
Theorem pref_conf_writes_hw_params_only (answer : bool) (choice key : KeyType)
        (a : Preference.ConfigurationApp) :
  (forall d, Preference.confdict a !! "hw_params" = Some (JDict d) ->
             outcome (Preference._pref_conf answer choice key) a = Ok None /\
             Preference.confdict (state_after (Preference._pref_conf answer choice key) a)
             = <["hw_params" :=
                   JDict (<[(if eq_lit choice "rate" then "rate" else "fomatname")
                            := JKey key]> d)]> (Preference.confdict a)) /\
  (Preference.confdict a !! "hw_params" = None ->
   Preference._pref_conf answer choice key a = (Raise (KeyError (KStr "hw_params")), a)) /\
  (forall k, k <> "hw_params" ->
             Preference.confdict (state_after (Preference._pref_conf answer choice key) a) !! k
             = Preference.confdict a !! k).
Proof.
  assert (Hor : Preference.or_lit (eq_lit choice "alsa") "sounddevice" = true).
  { unfold Preference.or_lit. now rewrite orb_true_r. }
  assert (Hrun : forall k',
             (do_ Preference.conf_set2 "hw_params" k' key;
              do_ Preference.guess answer; ret (@None bool)) a
             = match Preference.confdict a !! "hw_params" with
               | Some (JDict d) =>
                   (Ok None,
                    state_after (Preference.guess answer)
                      (Preference.set_confdict
                         (<["hw_params" := JDict (<[k' := JKey key]> d)]>
                            (Preference.confdict a)) a))
               | Some _ => (Raise TypeError, a)
               | None => (Raise (KeyError (KStr "hw_params")), a)
               end).
  { intros k'. unfold Preference.conf_set2, setitem2, bind, gets, modify, ret, raise.
    destruct (Preference.confdict a !! "hw_params") as [[ | | | | d] | ];
      try reflexivity.
    unfold state_after, Preference.guess, bind, gets, modify. destruct answer; reflexivity. }
  assert (Hguess : forall s,
             Preference.confdict (state_after (Preference.guess answer) s)
             = Preference.confdict s).
  { intros s. unfold state_after, Preference.guess, bind, gets, modify.
    destruct answer; reflexivity. }
  assert (Hpref : Preference._pref_conf answer choice key a
                  = (do_ Preference.conf_set2 "hw_params"
                           (if eq_lit choice "rate" then "rate" else "fomatname") key;
                     do_ Preference.guess answer; ret (@None bool)) a).
  { unfold Preference._pref_conf. rewrite Hor. destruct (eq_lit choice "rate"); reflexivity. }
  split; [ | split ].
  - intros d Hd. unfold outcome, state_after. rewrite Hpref, Hrun, Hd. simpl.
    split; [ reflexivity | ]. apply Hguess.
  - intros Hd. rewrite Hpref, Hrun, Hd. reflexivity.
  - intros k Hk. unfold state_after. rewrite Hpref, Hrun.
    destruct (Preference.confdict a !! "hw_params") as [[ | | | | d] | ];
      try reflexivity.
    simpl. rewrite Hguess. simpl. apply lookup_insert_ne. congruence.
Qed.

Lemma pref_conf_writes_hw_params_only_witness :
  Preference.confdict
    (state_after (Preference._pref_conf true (KStr "mu") (KStr "0.5"))
                 (Scenario.capp1 (KStr "mu"))) !! "filter_params"
  = Some (JDict ∅).
Proof.
  apply (proj2 (proj2 (pref_conf_writes_hw_params_only true (KStr "mu") (KStr "0.5")
                         (Scenario.capp1 (KStr "mu")))) "filter_params").
  discriminate.
Defined.

(** ** dump_defaults on a configuration with its description *)

Section DumpMore.

Variable dumps : option nat -> gmap string json -> string.

(** X12. On a [config] that has its description,
    [dump_defaults(description=False)] deletes that key and no other, prints
    the remaining dict once, indented by four, exactly when [puts] holds, and
    returns the text of the remaining dict with the dict. With
    [description=True] the call never fails and changes nothing but the
    output. *)
Theorem dump_defaults_removes_only_the_description (puts : bool)
        (m : Config.Module_) (v : json) :
  Config.config m !! "__description__" = Some v ->
  let rest := delete "__description__" (Config.config m) in
  Config.dump_defaults dumps puts false m
  = (Ok (dumps None rest, rest),
     Config.mkModule rest (Config.ic m)
       (Config.stdout m ++ (if puts then [dumps (Some 4%nat) rest] else []))
       (Config.exited m)) /\
  rest !! "__description__" = None /\
  (forall k, k <> "__description__" -> rest !! k = Config.config m !! k) /\
  Config.dump_defaults dumps puts true m
  = (Ok (dumps None (Config.config m), Config.config m),
     Config.mkModule (Config.config m) (Config.ic m)
       (Config.stdout m ++ (if puts then [dumps (Some 4%nat) (Config.config m)] else []))
       (Config.exited m)).
Proof.
  intros Hv rest. split; [ | split; [ | split ] ].
  - unfold Config.dump_defaults, Config.delitem, when, bind, gets, modify, ret.
    simpl. rewrite Hv. destruct puts; simpl; [ reflexivity | ].
    rewrite app_nil_r. reflexivity.
  - apply lookup_delete_eq.
  - intros k Hk. apply lookup_delete_ne. congruence.
  - unfold Config.dump_defaults, when, bind, gets, modify, ret.
    destruct puts; simpl; [ reflexivity | ].
    rewrite app_nil_r. destruct m; reflexivity.
Qed.

End DumpMore.

Lemma dump_defaults_removes_only_the_description_witness :
  outcome (Config.dump_defaults (fun _ c => pretty (size c)) true false)
          (Scenario.module_of Scenario.loaded)
  = Ok ("2", Scenario.params).
Proof.
  destruct (dump_defaults_removes_only_the_description (fun _ c => pretty (size c))
              true (Scenario.module_of Scenario.loaded) (JKey (KStr "defaults")) eq_refl)
    as [Hrun _].
  unfold outcome. rewrite Hrun. reflexivity.
Defined.

(** ** The breadcrumb only grows *)






